(** * Recurring vs. new customer: face matching and enrolment

    A shallow embedding of the Python sources [utils.py], [services.py],
    [models.py] and [api.py], and the properties of the face filter, the
    match decision, the index loader and the batch endpoint.

    Python [float] is IEEE binary64 and is modelled by Rocq's primitive
    floats; Python [int] is [Z]; a [dict] with a fixed set of keys is a
    record whose optional keys are [option] fields; the working directory
    is a finite map from path names to nodes.  OpenCV, DeepFace, FAISS and
    the [os]/[tempfile] modules are external libraries: their calls are the
    fields of the class [Externals]. *)

From Stdlib Require Import ZArith Floats Lia.
From stdpp Require Import gmap strings list pretty.

Set Warnings "-inexact-float".
Open Scope Z_scope.

(** ** Python values, exceptions and arithmetic *)

Module Py.

(** The exception classes the sources raise or can receive from a
    library call.  Every one of them derives from [Exception]. *)
Inductive exn : Type :=
| ValueError
| TypeError
| IndexError
| AttributeError
| FileNotFoundError
| FileExistsError
| RuntimeError
| HTTPException (status_code : Z)
| LibraryError (name : string).

Inductive result (A : Type) : Type :=
| Ok (a : A)
| Err (e : exn).
Arguments Ok {A} a.
Arguments Err {A} e.

Definition is_ok {A} (r : result A) : bool :=
  match r with Ok _ => true | Err _ => false end.

(** [float(n)] for an [int]: rounding to nearest even.  (Python raises
    [OverflowError] beyond the binary64 range, far above any pixel
    coordinate; the model saturates there.) *)
Definition float_of_int (n : Z) : float :=
  SF2Prim (binary_normalize prec emax n 0 false).

(** [n < f] and [n > f] for an [int] and a [float]: Python compares the
    two exactly, without rounding the integer. *)
Definition int_lt_float (n : Z) (f : float) : bool :=
  match Prim2SF f with
  | S754_nan => false
  | S754_infinity s => negb s
  | S754_zero _ => n <? 0
  | S754_finite s m e =>
      let v := if s then Z.neg m else Z.pos m in
      if 0 <=? e then n <? v * 2 ^ e else n * 2 ^ (- e) <? v
  end.

Definition int_gt_float (n : Z) (f : float) : bool :=
  match Prim2SF f with
  | S754_nan => false
  | S754_infinity s => s
  | S754_zero _ => 0 <? n
  | S754_finite s m e =>
      let v := if s then Z.neg m else Z.pos m in
      if 0 <=? e then v * 2 ^ e <? n else v <? n * 2 ^ (- e)
  end.

(** The bounds of the slice [a:b] of a sequence of length [n]: negative
    indices count from the end, everything is clamped to [0, n], and an
    inverted range is empty.  Returns the start and the length. *)
Definition slice_index (n i : Z) : Z :=
  if i <? 0 then Z.max 0 (i + n) else Z.min i n.

Definition slice_bounds (n a b : Z) : Z * Z :=
  let start := slice_index n a in
  let stop := slice_index n b in
  (start, Z.max 0 (stop - start)).

End Py.
Export Py.

(** ** Data *)

(** An image as NumPy holds it: a rectangular window on a pixel buffer.
    [cv2.imread] and [cv2.imdecode] return the whole buffer, a slice
    [img[a:b, c:d]] is a narrower window on the same buffer. *)
Record ndarray (P : Type) : Type := {
  base : P;
  row0 : Z;
  nrows : Z;
  col0 : Z;
  ncols : Z
}.
Arguments base {P} _.
Arguments row0 {P} _.
Arguments nrows {P} _.
Arguments col0 {P} _.
Arguments ncols {P} _.

(** [img.shape[:2]] *)
Definition shape {P} (a : ndarray P) : Z * Z := (nrows a, ncols a).

(** [a.size] of a three-channel image *)
Definition size_of {P} (a : ndarray P) : Z := nrows a * ncols a * 3.

(** [img[y0:y1, x0:x1]] *)
Definition slice2 {P} (img : ndarray P) (y0 y1 x0 x1 : Z) : ndarray P :=
  let '(r, nr) := slice_bounds (nrows img) y0 y1 in
  let '(c, nc) := slice_bounds (ncols img) x0 x1 in
  {| base := base img;
     row0 := row0 img + r; nrows := nr;
     col0 := col0 img + c; ncols := nc |}.

(** The value stored under a landmark key of ["facial_area"]: DeepFace
    stores a pair of pixel coordinates, or [None] when the detector gave
    no such landmark. *)
Definition landmark : Type := option (Z * Z).

(** A point of a picture as the detector reports it: both coordinates
    are at most 2^25 in absolute value.  NumPy holds such a pair as an
    [int64] array; for two such points the subtraction cannot wrap, the
    squares of the differences and their sum are integers up to 2^53,
    and the sum and the halving of the eye abscissas are exact, so that
    every order of evaluation of [np.linalg.norm] and of the nose offset
    gives the binary64 value the model computes.  Properties that speak
    of the value of the eye distance are stated for such points. *)
Definition pixel_point (p : Z * Z) : Prop :=
  Z.abs (fst p) <= 2 ^ 25 /\ Z.abs (snd p) <= 2 ^ 25.

(** The ["facial_area"] dictionary of one detection.  A field is [None]
    when the key is absent from the dictionary. *)
Module fa.
Record region : Type := {
  x : option Z;
  y : option Z;
  w : option Z;
  h : option Z;
  left_eye : option landmark;
  right_eye : option landmark;
  nose : option landmark
}.

(** The empty dictionary [{}]. *)
Definition empty : region :=
  {| x := None; y := None; w := None; h := None;
     left_eye := None; right_eye := None; nose := None |}.

(** [key in r] *)
Definition has {A} (field : option A) : bool :=
  match field with Some _ => true | None => false end.

(** Truth value of the dictionary: [False] only for [{}]. *)
Definition nonempty (r : region) : bool :=
  has (x r) || has (y r) || has (w r) || has (h r)
  || has (left_eye r) || has (right_eye r) || has (nose r).

(** [r.get(key, default)] *)
Definition get {A} (field : option A) (default : A) : A :=
  match field with Some v => v | None => default end.
End fa.

(** One element of [DeepFace.extract_faces]; only the key the program
    reads is kept. *)
Record detection : Type := { facial_area : option fa.region }.

(** The upload the web framework hands to the endpoint: [f.filename] and
    what [await f.read()] gives. *)
Module fastapi.
Record UploadFile : Type := {
  filename : option string;
  read : result (list Byte.byte)
}.
End fastapi.

(** ** External libraries *)

(** What the program obtains from NumPy/OpenCV, DeepFace, FAISS and the
    operating system.  Nothing is assumed about these answers. *)
Class Externals : Type := {
  (** the pixel buffer behind an image array *)
  Pixels : Type;
  (** a [(1, d)] [float32] array, L2-normalised *)
  Embedding : Type;
  (** a [faiss.Index] *)
  Index : Type;
  (** [index.ntotal] *)
  ntotal : Index -> Z;
  (** [index.search(emb, k=1)]: the pair [(D[0][0], I[0][0])] *)
  faiss_search : Index -> Embedding -> result (float * Z);
  (** [index.add(emb)] *)
  faiss_add : Index -> Embedding -> result Index;
  (** [DeepFace.extract_faces(img_path, detector_backend="retinaface",
      enforce_detection=False)] *)
  extract_faces : string -> result (list detection);
  (** [cv2.imread(img_path)]; [None] when the file cannot be read *)
  imread : string -> option (ndarray Pixels);
  (** lines 35-47 of [utils.py] applied to one crop: the crop is written
      to a scratch file, [DeepFace.represent] reads it back and the vector
      is L2-normalised *)
  represent : ndarray Pixels -> result Embedding;
  (** [cv2.imdecode(np.frombuffer(data, np.uint8), cv2.IMREAD_COLOR)] *)
  imdecode : list Byte.byte -> option (ndarray Pixels);
  (** [os.path.splitext(name)[1]] *)
  splitext_ext : string -> string;
  (** the name [tempfile.mkstemp(suffix, prefix)] picks; the last argument
      counts the calls made so far *)
  mkstemp : string -> string -> nat -> string;
  (** [cv2.imwrite(path, img)] *)
  imwrite : string -> ndarray Pixels -> result unit
}.

(** The same libraries with another answer to the index search. *)
Definition with_search (E : Externals)
    (s : @Index E -> @Embedding E -> result (float * Z)) : Externals :=
  {| Pixels := @Pixels E;
     Embedding := @Embedding E;
     Index := @Index E;
     ntotal := @ntotal E;
     faiss_search := s;
     faiss_add := @faiss_add E;
     extract_faces := @extract_faces E;
     imread := @imread E;
     represent := @represent E;
     imdecode := @imdecode E;
     splitext_ext := @splitext_ext E;
     mkstemp := @mkstemp E;
     imwrite := @imwrite E |}.

(** ** utils.py *)

Module utils.

Definition MODEL_NAME : string := "Facenet512".
Definition CUSTOMER_DIR : string := "known_faces".
Definition FAISS_INDEX_PATH : string := "customer_index.faiss".
(** cosine similarity threshold for "same person" *)
Definition THRESHOLD : float := 0.7%float.

(** *** The face candidate filter *)

(** [x < img_w * r or y < img_h * r or (x + fw) > img_w * (1 - r)
     or (y + fh) > img_h * (1 - r)] *)
Definition near_edge (img_h img_w : Z) (edge_margin_ratio : float)
    (x y fw fh : Z) : bool :=
  int_lt_float x (float_of_int img_w * edge_margin_ratio)%float
  || int_lt_float y (float_of_int img_h * edge_margin_ratio)%float
  || int_gt_float (x + fw)
       (float_of_int img_w * (float_of_int 1 - edge_margin_ratio))%float
  || int_gt_float (y + fh)
       (float_of_int img_h * (float_of_int 1 - edge_margin_ratio))%float.

(** [np.array(landmarks.get(key, [0, 0]))]: the default pair when the
    key is absent, the stored value otherwise (a stored [None] gives an
    array that holds no coordinates). *)
Definition landmark_array (field : option landmark) : landmark :=
  fa.get field (Some (0, 0)).

(** [float(np.linalg.norm(left_eye - right_eye))] for two integer
    pairs: the square root of the dot product of the difference, taken
    in binary64.  This is the value NumPy computes for two
    [pixel_point]s, where the [int64] subtraction does not wrap and the
    dot product is exact; beyond that range NumPy wraps the difference,
    rounds the dot product as its BLAS does, or refuses integers that do
    not fit 64 bits; the properties of this value are therefore stated
    for [pixel_point]s only. *)
Definition eye_distance (left_eye right_eye : Z * Z) : float :=
  let dx := float_of_int (fst left_eye - fst right_eye) in
  let dy := float_of_int (snd left_eye - snd right_eye) in
  PrimFloat.sqrt (dx * dx + dy * dy)%float.

(** [abs((float(left_eye[0]) + float(right_eye[0])) / 2.0 - float(nose[0]))],
    likewise for [pixel_point]s. *)
Definition nose_to_center (left_eye right_eye nose : Z * Z) : float :=
  PrimFloat.abs
    ((float_of_int (fst left_eye) + float_of_int (fst right_eye)) / 2
     - float_of_int (fst nose))%float.

(** [nose_to_center / eye_distance if eye_distance > 0 else 1.0] *)
Definition asymmetry_ratio (left_eye right_eye nose : Z * Z) : float :=
  let d := eye_distance left_eye right_eye in
  if (0 <? d)%float then (nose_to_center left_eye right_eye nose / d)%float
  else 1%float.

(** Lines 93-105: the profile test on the landmark dictionary.  [Ok true]
    means "skipped as a side profile".  Subtracting from, or indexing,
    the array made of [None] raises. *)
Definition side_profile (profile_threshold : float) (landmarks : fa.region)
    : result bool :=
  if fa.nonempty landmarks then
    match landmark_array (fa.left_eye landmarks),
          landmark_array (fa.right_eye landmarks) with
    | Some left_eye, Some right_eye =>
        match landmark_array (fa.nose landmarks) with
        | Some nose =>
            let ratio := asymmetry_ratio left_eye right_eye nose in
            Ok (profile_threshold <? ratio)%float
        | None => Err IndexError
        end
    | _, _ => Err TypeError
    end
  else Ok false.

(** Lines 68-72: [(x, y, fw, fh)], each key read with the default 0. *)
Definition bounding_box (face : detection) : Z * Z * Z * Z :=
  let region := fa.get (facial_area face) fa.empty in
  (fa.get (fa.x region) 0, fa.get (fa.y region) 0,
   fa.get (fa.w region) 0, fa.get (fa.h region) 0).

(** Lines 74-89 of the loop body: the size test, the edge test and the
    crop; [None] when one of the three [continue]s is taken. *)
Definition box_crop {P} (img : ndarray P) (edge_margin_ratio : float)
    (face : detection) : option (ndarray P) :=
  let '(img_h, img_w) := shape img in
  let '(x, y, fw, fh) := bounding_box face in
  if (fw <=? 0) || (fh <=? 0) then None
  else if near_edge img_h img_w edge_margin_ratio x y fw fh then None
  else
    let crop := slice2 img y (y + fh) x (x + fw) in
    if size_of crop =? 0 then None
    else Some crop.

(** The body of the loop over the detections (lines 68-107): [Ok None]
    when the detection is skipped by a [continue], [Ok (Some crop)] when
    the crop is appended. *)
Definition crop_face {P} (img : ndarray P)
    (edge_margin_ratio profile_threshold : float) (face : detection)
    : result (option (ndarray P)) :=
  match box_crop img edge_margin_ratio face with
  | None => Ok None
  | Some crop =>
      let landmarks := fa.get (facial_area face) fa.empty in
      match side_profile profile_threshold landmarks with
      | Err e => Err e
      | Ok true => Ok None
      | Ok false => Ok (Some crop)
      end
  end.

(** The loop itself: an exception abandons the crops gathered so far. *)
Fixpoint crop_faces {P} (img : ndarray P)
    (edge_margin_ratio profile_threshold : float)
    (detections : list detection) (cropped_faces : list (ndarray P))
    : result (list (ndarray P)) :=
  match detections with
  | [] => Ok cropped_faces
  | face :: rest =>
      match crop_face img edge_margin_ratio profile_threshold face with
      | Err e => Err e
      | Ok None =>
          crop_faces img edge_margin_ratio profile_threshold rest cropped_faces
      | Ok (Some crop) =>
          crop_faces img edge_margin_ratio profile_threshold rest
            (cropped_faces ++ [crop])
      end
  end.

Definition detect_faces_and_crop `{Externals} (img_path : string)
    (edge_margin_ratio profile_threshold : float)
    : result (list (ndarray Pixels)) :=
  match extract_faces img_path with
  | Err e => Err e
  | Ok detections =>
      match imread img_path with
      | None => Err ValueError
      | Some img =>
          crop_faces img edge_margin_ratio profile_threshold detections []
      end
  end.

(** The defaults of the two keyword arguments. *)
Definition default_edge_margin_ratio : float := 0.005%float.
Definition default_profile_threshold : float := 0.6%float.

End utils.

(** ** Effects: the working directory and the exception-and-state monad *)

(** What a path of the working directory names. *)
Inductive node `{Externals} : Type :=
| Dir
| IndexFile (ix : Index)
| ImageFile (img : ndarray Pixels)
| OtherFile.

(** A computation that reads and updates a state and either returns a
    value or raises.  A raised exception keeps the state reached so far:
    Python undoes nothing. *)
Definition M (S A : Type) : Type := S -> result A * S.

Definition ret {S A} (a : A) : M S A := fun s => (Ok a, s).

Definition raise {S A} (e : exn) : M S A := fun s => (Err e, s).

Definition bind {S A B} (c : M S A) (k : A -> M S B) : M S B :=
  fun s =>
    match c s with
    | (Ok a, s') => k a s'
    | (Err e, s') => (Err e, s')
    end.

(** [try: c except Exception: handler] *)
Definition try_except {S A} (c : M S A) (handler : exn -> M S A) : M S A :=
  fun s =>
    match c s with
    | (Ok a, s') => (Ok a, s')
    | (Err e, s') => handler e s'
    end.

Definition lift {S A} (r : result A) : M S A := fun s => (r, s).

Definition gets {S A} (f : S -> A) : M S A := fun s => (Ok (f s), s).

Definition modify {S} (f : S -> S) : M S unit := fun s => (Ok tt, f s).

Declare Scope py_scope.
Delimit Scope py_scope with py.
Notation "v <- c ;; k" := (bind c (fun v => k))
  (at level 100, c at next level, right associativity) : py_scope.
Notation "c ;;; k" := (bind c (fun _ => k))
  (at level 100, right associativity) : py_scope.

Module disk_ops.
Section WithExternals.
Context `{Externals}.

(** [os.path.isdir(p)] *)
Definition isdir (p : string) (d : gmap string node) : bool :=
  match d !! p with Some Dir => true | _ => false end.

(** [os.path.exists(p)] *)
Definition exists_ (p : string) (d : gmap string node) : bool :=
  match d !! p with Some _ => true | None => false end.

(** [os.makedirs(p, exist_ok=True)] for a one-component path *)
Definition makedirs (p : string) : M (gmap string node) unit :=
  fun d =>
    match d !! p with
    | None => (Ok tt, <[p := Dir]> d)
    | Some Dir => (Ok tt, d)
    | Some _ => (Err FileExistsError, d)
    end.

(** [faiss.read_index(p)] *)
Definition read_index (p : string) : M (gmap string node) Index :=
  fun d =>
    match d !! p with
    | Some (IndexFile ix) => (Ok ix, d)
    | _ => (Err RuntimeError, d)
    end.

(** [faiss.write_index(ix, p)] *)
Definition write_index (ix : Index) (p : string)
    : M (gmap string node) unit :=
  fun d =>
    match d !! p with
    | Some Dir => (Err RuntimeError, d)
    | _ => (Ok tt, <[p := IndexFile ix]> d)
    end.
End WithExternals.
End disk_ops.

(** ** utils.py, continued: the index loader *)

Module utils_io.
Import utils disk_ops.
Section WithExternals.
Context `{Externals}.
Local Open Scope py_scope.

Definition ensure_customer_dir_exists : M (gmap string node) unit :=
  fun d =>
    if negb (isdir CUSTOMER_DIR d) then makedirs CUSTOMER_DIR d
    else (Ok tt, d).

Definition load_or_create_index : M (gmap string node) Index :=
  ensure_customer_dir_exists ;;;
  present <- gets (exists_ FAISS_INDEX_PATH) ;;
  if negb present then raise FileNotFoundError
  else
    index <- read_index FAISS_INDEX_PATH ;;
    ret index.
End WithExternals.
End utils_io.

(** ** services.py *)

Module services.
Import utils disk_ops utils_io.

(** One element of the list [recognize_image_path] returns: the keys
    ["is_returning"], ["similarity"], ["index"] and, in the dictionary
    built for a new face only, ["saved_path"]. *)
Record match_result : Type := {
  is_returning : bool;
  similarity : float;
  index : Z;
  saved_path : option string
}.

Section WithExternals.
Context `{Externals}.
Local Open Scope py_scope.

(** The service object ([self.index]) together with the working
    directory it writes to and the count of scratch names handed out
    to the endpoint. *)
Record world : Type := {
  self_index : Index;
  disk : gmap string node;
  clock : nat
}.

Definition set_index (ix : Index) (wd : world) : world :=
  {| self_index := ix; disk := disk wd; clock := clock wd |}.

Definition set_disk (d : gmap string node) (wd : world) : world :=
  {| self_index := self_index wd; disk := d; clock := clock wd |}.

Definition tick (wd : world) : world :=
  {| self_index := self_index wd; disk := disk wd;
     clock := S (clock wd) |}.

(** Run a computation on the working directory inside a [world]. *)
Definition on_disk {A} (c : M (gmap string node) A) : M world A :=
  fun wd => let '(r, d) := c (disk wd) in (r, set_disk d wd).

(** What the name [utils.save_new_customer_face] is bound to; [None]
    when the module [utils] has no such attribute, in which case
    evaluating the name raises [AttributeError]. *)
Definition save_binding : Type :=
  option (ndarray Pixels -> M world string).

Definition utils_getattr_save (utils_save : save_binding)
    : M world (ndarray Pixels -> M world string) :=
  match utils_save with
  | Some f => ret f
  | None => raise AttributeError
  end.

(** Lines 35-46: the embedding of the crop, its nearest neighbour in
    the index [ix] and the decision [is_match].  The scratch file of
    lines 35 and 68-72 only carries the crop to the embedding model
    and is covered by [represent]. *)
Definition match_face (ix : Index) (face_img_bgr : ndarray Pixels)
    : result (Embedding * float * Z * bool) :=
  match represent face_img_bgr with
  | Err e => Err e
  | Ok emb =>
      match (if ntotal ix =? 0 then Ok (0%float, -1)
             else faiss_search ix emb) with
      | Err e => Err e
      | Ok (similarity, match_idx) =>
          let is_match := (THRESHOLD <? similarity)%float in
          Ok (emb, similarity, match_idx, is_match)
      end
  end.

(** Lines 48-59: the branch [if not is_match]. *)
Definition enroll (utils_save : save_binding)
    (face_img_bgr : ndarray Pixels) (emb : Embedding)
    (similarity : float) (match_idx : Z) (results : list match_result)
    : M world (list match_result) :=
  save_new_customer_face <- utils_getattr_save utils_save ;;
  new_path <- save_new_customer_face face_img_bgr ;;
  ix <- gets self_index ;;
  ix' <- lift (faiss_add ix emb) ;;
  modify (set_index ix') ;;;
  on_disk (write_index ix' FAISS_INDEX_PATH) ;;;
  ret (results ++ [{| is_returning := false;
                      similarity := similarity;
                      index := match_idx;
                      saved_path := Some new_path |}]).

(** Lines 61-67: the branch [else]. *)
Definition report_returning (similarity : float) (match_idx : Z)
    (results : list match_result) : M world (list match_result) :=
  ret (results ++ [{| is_returning := true;
                      similarity := similarity;
                      index := match_idx;
                      saved_path := None |}]).

(** Lines 35-72: the body of the loop over the faces. *)
Definition recognize_face (utils_save : save_binding)
    (face_img_bgr : ndarray Pixels) (results : list match_result)
    : M world (list match_result) :=
  ix <- gets self_index ;;
  m <- lift (match_face ix face_img_bgr) ;;
  let '(emb, similarity, match_idx, is_match) := m in
  if negb is_match then
    enroll utils_save face_img_bgr emb similarity match_idx results
  else
    report_returning similarity match_idx results.

(** The dictionary the [else] branch appends for the crop, when the
    crop is matched; [None] when it is not matched or cannot be
    embedded or searched. *)
Definition returning_verdict (ix : Index) (face_img_bgr : ndarray Pixels)
    : option match_result :=
  match match_face ix face_img_bgr with
  | Ok (_, similarity, match_idx, true) =>
      Some {| is_returning := true; similarity := similarity;
              index := match_idx; saved_path := None |}
  | _ => None
  end.

(** The crop is embedded and searched, and is not matched. *)
Definition decided_new (ix : Index) (face_img_bgr : ndarray Pixels)
    : bool :=
  match match_face ix face_img_bgr with
  | Ok (_, _, _, false) => true
  | _ => false
  end.

Fixpoint recognize_faces (utils_save : save_binding)
    (faces : list (ndarray Pixels)) (results : list match_result)
    : M world (list match_result) :=
  match faces with
  | [] => ret results
  | face_img_bgr :: rest =>
      results' <- recognize_face utils_save face_img_bgr results ;;
      recognize_faces utils_save rest results'
  end.

Definition recognize_image_path_with (utils_save : save_binding)
    (image_path : string) : M world (list match_result) :=
  faces <- lift (detect_faces_and_crop image_path
                   default_edge_margin_ratio default_profile_threshold) ;;
  recognize_faces utils_save faces [].

(** [utils.py] defines no [save_new_customer_face]. *)
Definition utils_save_new_customer_face : save_binding := None.

(** [RecognitionService.recognize_image_path] *)
Definition recognize_image_path (image_path : string)
    : M world (list match_result) :=
  recognize_image_path_with utils_save_new_customer_face image_path.

(** The interpreter process: the class attribute
    [RecognitionService._instance] (the object, if any, is its
    [index]), the working directory and the scratch-name count. *)
Record process : Type := {
  _instance : option Index;
  files : gmap string node;
  names : nat
}.

(** [RecognitionService()] *)
Definition init : M (gmap string node) Index := load_or_create_index.

(** [RecognitionService.instance()] *)
Definition instance : M process Index :=
  fun p =>
    match _instance p with
    | Some ix => (Ok ix, p)
    | None =>
        match init (files p) with
        | (Ok ix, d) =>
            (Ok ix, {| _instance := Some ix; files := d; names := names p |})
        | (Err e, d) =>
            (Err e, {| _instance := None; files := d; names := names p |})
        end
    end.

(** [reload_index] *)
Definition reload_index : M world Z :=
  ix <- on_disk load_or_create_index ;;
  modify (set_index ix) ;;;
  ret (ntotal ix).
End WithExternals.
End services.

(** ** models.py *)

Module models.
Record RecognizeItem : Type := {
  is_returning : bool;
  similarity : float
}.

Record RecognizePerImage : Type := {
  filename : string;
  num_faces : Z;
  results : list RecognizeItem
}.

Record RecognizeBatchResponse : Type := {
  items : list RecognizePerImage
}.

(** [RecognizeItem] built from the keys of [r]: the model keeps its two
    declared fields and ignores the other keys of [r]. *)
Definition RecognizeItem_of (r : services.match_result) : RecognizeItem :=
  {| is_returning := services.is_returning r;
     similarity := services.similarity r |}.
End models.

(** ** api.py *)

Module api.
Import services models.
Section WithExternals.
Context `{Externals}.
Local Open Scope py_scope.

(** [RecognizePerImage(filename=name, num_faces=0, results=[])] *)
Definition no_faces (name : string) : RecognizePerImage :=
  {| filename := name; num_faces := 0; results := [] |}.

(** [tempfile.mkstemp(suffix=suffix, prefix=prefix)] *)
Definition fresh_name (suffix prefix : string) : M world string :=
  fun wd => (Ok (mkstemp suffix prefix (clock wd)), tick wd).

(** Lines 69-94: the body of the [try] statement for the upload [f]
    whose file name is [name]; the value is the entry appended to
    [outputs]. *)
Definition process_upload (name : string) (f : fastapi.UploadFile)
    : M world RecognizePerImage :=
  data <- lift (fastapi.read f) ;;
  if (length data =? 0)%nat then ret (no_faces name)
  else
    let np_arr := data in
    if (length np_arr =? 0)%nat then ret (no_faces name)
    else
      match imdecode np_arr with
      | None => ret (no_faces name)
      | Some img =>
          let ext := splitext_ext name in
          let suffix := if String.eqb ext "" then ".jpg"%string else ext in
          tmp_path <- fresh_name suffix "upload_" ;;
          lift (imwrite tmp_path img) ;;;
          results_raw <- recognize_image_path tmp_path ;;
          let items := map RecognizeItem_of results_raw in
          ret {| filename := name;
                 num_faces := Z.of_nat (length items);
                 results := items |}
      end.

(** One turn of the loop over [files] (lines 62-104): the entry
    appended for the upload [f].  The [finally] clause only removes the
    scratch file. *)
Definition handle_upload (f : fastapi.UploadFile) : M world RecognizePerImage :=
  match fastapi.filename f with
  | None | Some EmptyString => ret (no_faces "")
  | Some name =>
      try_except (process_upload name f) (fun _ => ret (no_faces name))
  end.

Fixpoint handle_uploads (files : list fastapi.UploadFile)
    (outputs : list RecognizePerImage)
    : M world (list RecognizePerImage) :=
  match files with
  | [] => ret outputs
  | f :: rest =>
      entry <- handle_upload f ;;
      handle_uploads rest (outputs ++ [entry])
  end.

(** The file name the entry of an upload carries. *)
Definition upload_name (f : fastapi.UploadFile) : string :=
  match fastapi.filename f with
  | None => ""
  | Some name => name
  end.

(** The payload cannot be turned into a picture: reading fails, there
    are no bytes, or the bytes do not decode. *)
Definition payload_unusable (f : fastapi.UploadFile) : bool :=
  match fastapi.read f with
  | Err _ => true
  | Ok data =>
      (length data =? 0)%nat
      || match imdecode data with None => true | Some _ => false end
  end.

(** A per-image failure of the upload [f] handled in the state [wd]:
    no file name, an unusable payload, or an exception while the
    picture is processed. *)
Definition upload_failed (f : fastapi.UploadFile) (wd : world) : bool :=
  match fastapi.filename f with
  | None | Some EmptyString => true
  | Some name =>
      payload_unusable f || negb (is_ok (fst (process_upload name f wd)))
  end.

(** The uploads are handled one after the other, each from the state
    its predecessor left. *)
Inductive served : list fastapi.UploadFile -> world ->
    list RecognizePerImage -> world -> Prop :=
| served_nil wd : served [] wd [] wd
| served_cons f rest wd entry wd' entries wd'' :
    handle_upload f wd = (Ok entry, wd') ->
    served rest wd' entries wd'' ->
    served (f :: rest) wd (entry :: entries) wd''.

(** [recognize_batch] *)
Definition recognize_batch (files : list fastapi.UploadFile)
    : M process RecognizeBatchResponse :=
  match files with
  | [] => raise (HTTPException 400)
  | _ :: _ =>
      service <- instance ;;
      fun p =>
        let wd := {| self_index := service; disk := services.files p;
                     clock := names p |} in
        let '(r, wd') := handle_uploads files [] wd in
        let p' := {| _instance := Some (self_index wd');
                     services.files := disk wd';
                     names := clock wd' |} in
        match r with
        | Ok outputs => (Ok {| items := outputs |}, p')
        | Err e => (Err e, p')
        end
  end.
End WithExternals.
End api.

(** ** A concrete world for the examples *)

(** Embeddings are short binary64 vectors and the index is the list of the
    vectors added so far, searched by inner product; the earliest entry
    wins a tie.  Every readable picture is 1000 by 1000 and shows one
    frontal face whose embedding is [(1, 0)]. *)
Module Demo.

(** A detection with bounding box [(x, y, fw, fh)] and the given values
    under the three landmark keys. *)
Definition detection_at (x y fw fh : Z)
    (left_eye right_eye nose : option landmark) : detection :=
  {| facial_area :=
       Some {| fa.x := Some x; fa.y := Some y; fa.w := Some fw; fa.h := Some fh;
               fa.left_eye := left_eye; fa.right_eye := right_eye;
               fa.nose := nose |} |}.

(** A frontal face: the nose sits below the midpoint of the eyes. *)
Definition frontal_at (x y fw fh : Z) : detection :=
  detection_at x y fw fh
    (Some (Some (x + 60, y + 80))) (Some (Some (x + 140, y + 80)))
    (Some (Some (x + 100, y + 120))).

(** A detection that carries a bounding box and no landmark key. *)
Definition bare_at (x y fw fh : Z) : detection :=
  detection_at x y fw fh None None None.

Definition picture {P} (b : P) (height width : Z) : ndarray P :=
  {| base := b; row0 := 0; nrows := height; col0 := 0; ncols := width |}.

Definition dot (u v : list float) : float :=
  fold_right (fun p acc => (fst p * snd p + acc)%float) 0%float (combine u v).

(** Best inner product and its rank among [entries], whose first element
    has rank [rank]; [best] is the answer so far. *)
Fixpoint nearest (q : list float) (entries : list (list float)) (rank : Z)
    (best : float * Z) : float * Z :=
  match entries with
  | [] => best
  | e :: rest =>
      let s := dot q e in
      nearest q rest (rank + 1)
        (if (fst best <? s)%float then (s, rank) else best)
  end.

Definition search (ix : list (list float)) (q : list float)
    : result (float * Z) :=
  match ix with
  | [] => Ok (neg_infinity, -1)
  | e :: rest => Ok (nearest q rest 1 (dot q e, 0))
  end.

Definition externals : Externals :=
  {| Pixels := unit;
     Embedding := list float;
     Index := list (list float);
     ntotal := fun ix => Z.of_nat (length ix);
     faiss_search := search;
     faiss_add := fun ix e => Ok (ix ++ [e]);
     extract_faces := fun _ => Ok [frontal_at 100 100 200 200];
     imread := fun _ => Some (picture tt 1000 1000);
     represent := fun _ => Ok [1%float; 0%float];
     imdecode := fun data =>
       match data with
       | Byte.x00 :: _ => None
       | _ => Some (picture tt 1000 1000)
       end;
     splitext_ext := fun _ => ".jpg"%string;
     mkstemp := fun suffix prefix n =>
       (prefix +:+ pretty n +:+ suffix)%string;
     imwrite := fun _ _ => Ok tt |}.

(** An index that knows one other person, and one that knows the face
    every picture shows. *)
Definition stranger_index : @Index externals := [[0%float; 1%float]].
Definition familiar_index : @Index externals := [[1%float; 0%float]].

(** A working directory that holds the customer directory and the saved
    index [ix]. *)
Definition directory_with (ix : @Index externals)
    : gmap string (@node externals) :=
  <[utils.FAISS_INDEX_PATH := @IndexFile externals ix]>
    (<[utils.CUSTOMER_DIR := @Dir externals]> ∅).

Definition world_with (ix : @Index externals) : @services.world externals :=
  {| services.self_index := ix; services.disk := directory_with ix;
     services.clock := 0 |}.

Definition started_with (ix : @Index externals)
    : @services.process externals :=
  {| services._instance := Some ix; services.files := directory_with ix;
     services.names := 0 |}.

(** A helper of the kind [recognize_image_path] calls for a new face:
    it stores the crop under the customer directory and returns the
    path. *)
Definition save_under_customer_dir
    : ndarray (@Pixels externals) -> M (@services.world externals) string :=
  fun crop wd =>
    let path := (utils.CUSTOMER_DIR +:+ "/customer_"
                 +:+ pretty (size (services.disk wd)) +:+ ".jpg")%string in
    (Ok path,
     services.set_disk
       (<[path := @ImageFile externals crop]> (services.disk wd)) wd).

(** The crop of the face every picture shows. *)
Definition face_crop : ndarray (@Pixels externals) :=
  {| base := tt; row0 := 100; nrows := 200; col0 := 100; ncols := 200 |}.

Definition upload (name : string) (data : list Byte.byte)
    : fastapi.UploadFile :=
  {| fastapi.filename := Some name; fastapi.read := Ok data |}.

End Demo.

(** ** streamlit_app.py *)

Module streamlit_app.
Import services models api.
Section WithExternals.
Context `{Externals}.
Local Open Scope py_scope.

(** Lines 54-75: the body of the inner [try] statement for the bytes
    [file_bytes] uploaded under the name [filename]; the value is the
    entry appended to [outputs]. *)
Definition process_bytes (filename : string) (file_bytes : list Byte.byte)
    : M world RecognizePerImage :=
  let np_arr := file_bytes in
  if (length np_arr =? 0)%nat then ret (no_faces filename)
  else
    match imdecode np_arr with
    | None => ret (no_faces filename)
    | Some img =>
        let ext := splitext_ext filename in
        let suffix := if String.eqb ext "" then ".jpg"%string else ext in
        tmp_path <- fresh_name suffix "upload_" ;;
        lift (imwrite tmp_path img) ;;;
        results_raw <- recognize_image_path tmp_path ;;
        let items := map RecognizeItem_of results_raw in
        ret {| filename := filename;
               num_faces := Z.of_nat (length items);
               results := items |}
    end.

(** One turn of the loop over [zip(files, filenames)] (lines 49-86).  The
    [finally] clause only removes the scratch file. *)
Definition handle_bytes (file_bytes : list Byte.byte) (filename : string)
    : M world RecognizePerImage :=
  match filename with
  | EmptyString => ret (no_faces "")
  | _ =>
      try_except (process_bytes filename file_bytes)
        (fun _ => ret (no_faces filename))
  end.

Fixpoint handle_pairs (pairs : list (list Byte.byte * string))
    (outputs : list RecognizePerImage)
    : M world (list RecognizePerImage) :=
  match pairs with
  | [] => ret outputs
  | (file_bytes, filename) :: rest =>
      entry <- handle_bytes file_bytes filename ;;
      handle_pairs rest (outputs ++ [entry])
  end.

(** [process_images_directly]: the dictionary [{"items": [...]}], or
    [None] when the outer [except] clause is reached. *)
Definition process_images_directly (files : list (list Byte.byte))
    (filenames : list string)
    : process -> option RecognizeBatchResponse * process :=
  fun p =>
    match instance p with
    | (Err _, p1) => (None, p1)
    | (Ok service, p1) =>
        let wd := {| self_index := service; disk := services.files p1;
                     clock := names p1 |} in
        let '(r, wd') := handle_pairs (zip files filenames) [] wd in
        let p' := {| _instance := Some (self_index wd');
                     services.files := disk wd';
                     names := clock wd' |} in
        match r with
        | Ok outputs => (Some {| items := outputs |}, p')
        | Err _ => (None, p')
        end
    end.
End WithExternals.
End streamlit_app.

(** ** main.py *)

Module main.
Import services.

(** The start-up hook of [create_app]: it creates the service object. *)
Definition _startup `{Externals} : M process unit :=
  bind instance (fun _ => ret tt).
End main.

(** ** Vocabulary of the further properties *)

(** The window [c] lies inside the window [img] of the same buffer and
    holds at least one pixel. *)
Definition within {P} (img c : ndarray P) : Prop :=
  base c = base img
  /\ row0 img <= row0 c /\ row0 c + nrows c <= row0 img + nrows img
  /\ col0 img <= col0 c /\ col0 c + ncols c <= col0 img + ncols img
  /\ 0 < nrows c /\ 0 < ncols c.

(** Every landmark the detection stores as a point is a [pixel_point]. *)
Definition pixel_landmarks (face : detection) : Prop :=
  forall lm p,
    facial_area face = Some lm ->
    fa.left_eye lm = Some (Some p) \/ fa.right_eye lm = Some (Some p)
    \/ fa.nose lm = Some (Some p) ->
    pixel_point p.

(** The suffix the endpoint gives the scratch file of an upload. *)
Definition upload_suffix `{Externals} (name : string) : string :=
  if String.eqb (splitext_ext name) "" then ".jpg"%string
  else splitext_ext name.

(** The entry of an upload whose picture was read and whose surviving
    crops are [faces], judged against the index [ix]: one item per crop
    when every crop is matched, the empty entry otherwise. *)
Definition entry_of_faces `{Externals} (name : string) (ix : Index)
    (faces : list (ndarray Pixels)) : models.RecognizePerImage :=
  match mapM (services.returning_verdict ix) faces with
  | Some rs =>
      {| models.filename := name;
         models.num_faces := Z.of_nat (length rs);
         models.results := map models.RecognizeItem_of rs |}
  | None => api.no_faces name
  end.

(** The process once the service object holds [ix], with any working
    directory and scratch-name count. *)
Definition running `{Externals} (ix : Index) (d : gmap string node)
    (n : nat) : services.process :=
  {| services._instance := Some ix; services.files := d;
     services.names := n |}.

(** The upload whose name is [filename] and whose payload reads as
    [file_bytes]. *)
Definition as_upload (pair : list Byte.byte * string) : fastapi.UploadFile :=
  {| fastapi.filename := Some (snd pair); fastapi.read := Ok (fst pair) |}.

(** The entry is well formed: the count is the number of items and every
    item is a Returning one. *)
Definition entry_ok (entry : models.RecognizePerImage) : Prop :=
  models.num_faces entry = Z.of_nat (length (models.results entry))
  /\ Forall (fun item => models.is_returning item = true)
       (models.results entry).

(** * Properties *)

(** ** Arithmetic of the edge margin *)

Section Margins.
Import utils.

Lemma int_lt_float_5 (n : Z) : int_lt_float n 5%float = (n <? 5).
Proof.
  unfold int_lt_float.
  change (Prim2SF 5%float) with (S754_finite false 5629499534213120 (-50)).
  cbn -[Z.mul Z.pow Z.ltb].
  destruct (Z.ltb_spec n 5), (Z.ltb_spec (n * 2 ^ 50) 5629499534213120);
    try reflexivity; lia.
Qed.

Lemma int_gt_float_995 (n : Z) : int_gt_float n 995%float = (995 <? n).
Proof.
  unfold int_gt_float.
  change (Prim2SF 995%float) with (S754_finite false 8752112557096960 (-43)).
  cbn -[Z.mul Z.pow Z.ltb].
  destruct (Z.ltb_spec 995 n), (Z.ltb_spec 8752112557096960 (n * 2 ^ 43));
    try reflexivity; lia.
Qed.

(** In a 1000 by 1000 picture the default ratio puts the margins at
    exactly 5 and 995 pixels. *)
Lemma margins_1000 :
  (float_of_int 1000 * default_edge_margin_ratio)%float = 5%float
  /\ (float_of_int 1000 * (float_of_int 1 - default_edge_margin_ratio))%float
     = 995%float.
Proof. split; vm_compute; reflexivity. Qed.

Lemma near_edge_1000 (x y fw fh : Z) :
  near_edge 1000 1000 default_edge_margin_ratio x y fw fh
  = (x <? 5) || (y <? 5) || (995 <? x + fw) || (995 <? y + fh).
Proof.
  unfold near_edge.
  destruct margins_1000 as [-> ->].
  now rewrite !int_lt_float_5, !int_gt_float_995.
Qed.

Lemma slice_bounds_inside (n a b : Z) :
  0 <= a -> a <= b -> b <= n -> slice_bounds n a b = (a, b - a).
Proof.
  intros Ha Hab Hbn. unfold slice_bounds, slice_index.
  destruct (Z.ltb_spec a 0), (Z.ltb_spec b 0); try lia.
  f_equal; lia.
Qed.
End Margins.

(** ** The face candidate filter *)

Section FaceFilter.
Import utils.

Lemma crop_face_near_edge {P} (img : ndarray P) (r thr : float)
    (face : detection) (x y fw fh : Z) :
  bounding_box face = (x, y, fw, fh) ->
  near_edge (nrows img) (ncols img) r x y fw fh = true ->
  crop_face img r thr face = Ok None.
Proof.
  intros Hbox Hedge. unfold crop_face, box_crop, shape.
  rewrite Hbox, Hedge.
  now destruct ((fw <=? 0) || (fh <=? 0)).
Qed.

Lemma crop_face_inside {P} (img : ndarray P) (r thr : float)
    (face : detection) (x y fw fh : Z) :
  bounding_box face = (x, y, fw, fh) ->
  0 < fw -> 0 < fh -> 0 <= x -> 0 <= y ->
  x + fw <= ncols img -> y + fh <= nrows img ->
  near_edge (nrows img) (ncols img) r x y fw fh = false ->
  crop_face img r thr face =
    match side_profile thr (fa.get (facial_area face) fa.empty) with
    | Err e => Err e
    | Ok true => Ok None
    | Ok false =>
        Ok (Some {| base := base img; row0 := row0 img + y; nrows := fh;
                    col0 := col0 img + x; ncols := fw |})
    end.
Proof.
  intros Hbox Hfw Hfh Hx Hy Hxw Hyh Hedge.
  unfold crop_face, box_crop, shape, slice2. rewrite Hbox, Hedge.
  rewrite !slice_bounds_inside by lia.
  replace (y + fh - y) with fh by lia. replace (x + fw - x) with fw by lia.
  destruct (Z.leb_spec fw 0), (Z.leb_spec fh 0); try lia.
  unfold size_of; cbn [nrows ncols orb].
  destruct (Z.eqb_spec (fh * fw * 3) 0); [nia | reflexivity].
Qed.

(** C9, as amended.  The edge test rejects a detection whose bounding box
    crosses a margin, and only then: the four comparisons are strict.  In
    a 1000 by 1000 picture with the default ratio the margins lie at 5
    and 995 pixels; a box that crosses one of them is skipped, and a box
    that stays within them, touching or not, goes on to the profile test
    and is cropped as it stands.  A frontal face whose box starts at
    x = 4 is rejected, one that starts at x = 5 or at x = 6 is kept. *)
Theorem edge_filter_rejects_crossing_boxes :
  (forall P (img : ndarray P) r thr face x y fw fh,
      bounding_box face = (x, y, fw, fh) ->
      near_edge (nrows img) (ncols img) r x y fw fh = true ->
      crop_face img r thr face = Ok None)
  /\ (forall P (img : ndarray P) thr face x y fw fh,
      shape img = (1000, 1000) ->
      bounding_box face = (x, y, fw, fh) ->
      0 < fw -> 0 < fh ->
      (x < 5 \/ y < 5 \/ 995 < x + fw \/ 995 < y + fh ->
         crop_face img default_edge_margin_ratio thr face = Ok None)
      /\ (5 <= x -> 5 <= y -> x + fw <= 995 -> y + fh <= 995 ->
         crop_face img default_edge_margin_ratio thr face =
           match side_profile thr (fa.get (facial_area face) fa.empty) with
           | Err e => Err e
           | Ok true => Ok None
           | Ok false =>
               Ok (Some {| base := base img;
                           row0 := row0 img + y; nrows := fh;
                           col0 := col0 img + x; ncols := fw |})
           end))
  /\ (forall P (b : P),
      let img := Demo.picture b 1000 1000 in
      let crop_at x := {| base := b; row0 := 100; nrows := 200;
                          col0 := x; ncols := 200 |} in
      crop_face img default_edge_margin_ratio default_profile_threshold
        (Demo.frontal_at 4 100 200 200) = Ok None
      /\ crop_face img default_edge_margin_ratio default_profile_threshold
           (Demo.frontal_at 5 100 200 200) = Ok (Some (crop_at 5))
      /\ crop_face img default_edge_margin_ratio default_profile_threshold
           (Demo.frontal_at 6 100 200 200) = Ok (Some (crop_at 6))).
Proof.
  split; [| split].
  - intros. eapply crop_face_near_edge; eassumption.
  - intros P img thr face x y fw fh Hshape Hbox Hfw Hfh.
    injection Hshape as Hrows Hcols.
    split.
    + intros Hcross. eapply crop_face_near_edge; [exact Hbox |].
      rewrite Hrows, Hcols, near_edge_1000.
      destruct (Z.ltb_spec x 5), (Z.ltb_spec y 5),
        (Z.ltb_spec 995 (x + fw)), (Z.ltb_spec 995 (y + fh));
        try reflexivity; lia.
    + intros Hx Hy Hxw Hyh.
      apply crop_face_inside; try lia; try assumption.
      rewrite Hrows, Hcols, near_edge_1000.
      destruct (Z.ltb_spec x 5), (Z.ltb_spec y 5),
        (Z.ltb_spec 995 (x + fw)), (Z.ltb_spec 995 (y + fh));
        try reflexivity; lia.
  - intros P b img crop_at. repeat split; vm_compute; reflexivity.
Qed.

(** C9, as the specification states it, fails: in a 1000 by 1000 picture
    the margin is exactly 5 pixels, and the frontal face whose box starts
    at x = 5, touching the margin, is not excluded but cropped. *)
Lemma edge_filter_keeps_touching_box :
  (float_of_int 1000 * default_edge_margin_ratio)%float = 5%float
  /\ near_edge 1000 1000 default_edge_margin_ratio 5 100 200 200 = false
  /\ crop_face (Demo.picture tt 1000 1000)
       default_edge_margin_ratio default_profile_threshold
       (Demo.frontal_at 5 100 200 200)
     = Ok (Some {| base := tt; row0 := 100; nrows := 200;
                   col0 := 5; ncols := 200 |}).
Proof. repeat split; vm_compute; reflexivity. Qed.
End FaceFilter.

Section ProfileFilter.
Import utils.

Lemma side_profile_points (thr : float) (lm : fa.region) (le re n : Z * Z) :
  fa.left_eye lm = Some (Some le) ->
  fa.right_eye lm = Some (Some re) ->
  fa.nose lm = Some (Some n) ->
  side_profile thr lm = Ok (thr <? asymmetry_ratio le re n)%float.
Proof.
  intros Hl Hr Hn. unfold side_profile, fa.nonempty, landmark_array.
  rewrite Hl, Hr, Hn. cbn [fa.has fa.get].
  now rewrite !orb_true_r.
Qed.

Lemma eye_distance_same (e : Z * Z) : eye_distance e e = 0%float.
Proof. unfold eye_distance. rewrite !Z.sub_diag. vm_compute. reflexivity. Qed.

Lemma asymmetry_ratio_same (e n : Z * Z) : asymmetry_ratio e e n = 1%float.
Proof. unfold asymmetry_ratio. rewrite eye_distance_same. reflexivity. Qed.

(** C10, as amended.  For a detection that has passed the size and edge
    tests and carries its three landmarks as points of the picture
    (coordinates at most 2^25 in absolute value), the profile filter
    skips it exactly when the asymmetry ratio strictly exceeds the
    threshold, where the ratio is the nose offset divided by the eye
    distance when that distance is positive and the constant 1.0
    otherwise.  Coinciding eyes give the ratio 1.0, so they are rejected
    exactly by the thresholds below 1.0, the default 0.6 among them.  A
    ratio equal to the threshold is kept: 60/100 passes the default
    threshold and 61/100 does not. *)
Theorem profile_filter_rule :
  (forall P (img : ndarray P) r thr face lm le re n crop,
      box_crop img r face = Some crop ->
      facial_area face = Some lm ->
      fa.left_eye lm = Some (Some le) ->
      fa.right_eye lm = Some (Some re) ->
      fa.nose lm = Some (Some n) ->
      pixel_point le -> pixel_point re -> pixel_point n ->
      crop_face img r thr face =
        Ok (if (thr <? asymmetry_ratio le re n)%float then None
            else Some crop))
  /\ (forall le re n,
      pixel_point le -> pixel_point re -> pixel_point n ->
      asymmetry_ratio le re n =
        if (0 <? eye_distance le re)%float
        then (nose_to_center le re n / eye_distance le re)%float
        else 1%float)
  /\ (forall e n thr,
      pixel_point e -> pixel_point n ->
      eye_distance e e = 0%float
      /\ (thr <? asymmetry_ratio e e n)%float = (thr <? 1)%float)
  /\ (let img := Demo.picture tt 1000 1000 in
      let face nose_x :=
        Demo.detection_at 100 100 200 200 (Some (Some (150, 180)))
          (Some (Some (250, 180))) (Some (Some (nose_x, 220))) in
      let crop := {| base := tt; row0 := 100; nrows := 200;
                     col0 := 100; ncols := 200 |} in
      asymmetry_ratio (150, 180) (250, 180) (260, 220)
        = default_profile_threshold
      /\ crop_face img default_edge_margin_ratio default_profile_threshold
           (face 260) = Ok (Some crop)
      /\ asymmetry_ratio (150, 180) (250, 180) (261, 220) = 0.61%float
      /\ crop_face img default_edge_margin_ratio default_profile_threshold
           (face 261) = Ok None
      /\ crop_face img default_edge_margin_ratio default_profile_threshold
           (Demo.detection_at 100 100 200 200 (Some (Some (150, 180)))
              (Some (Some (150, 180))) (Some (Some (150, 220))))
         = Ok None).
Proof.
  split; [| split; [| split]].
  - intros P img r thr face lm le re n crop Hbox Hfa Hl Hr Hn _ _ _.
    unfold crop_face. rewrite Hbox, Hfa. cbn [fa.get].
    rewrite (side_profile_points thr lm le re n Hl Hr Hn).
    now destruct (thr <? asymmetry_ratio le re n)%float.
  - reflexivity.
  - intros e n thr _ _. split; [apply eye_distance_same |].
    now rewrite asymmetry_ratio_same.
  - repeat split; vm_compute; reflexivity.
Qed.

(** C10, as the specification states it, fails: with the threshold 1.0
    a detection whose two eyes coincide has eye distance zero and is
    nevertheless kept, because the ratio 1.0 that stands for it does
    not exceed the threshold. *)
Lemma profile_filter_keeps_zero_eye_distance :
  eye_distance (150, 180) (150, 180) = 0%float
  /\ crop_face (Demo.picture tt 1000 1000) default_edge_margin_ratio 1%float
       (Demo.detection_at 100 100 200 200 (Some (Some (150, 180)))
          (Some (Some (150, 180))) (Some (Some (150, 220))))
     = Ok (Some {| base := tt; row0 := 100; nrows := 200;
                   col0 := 100; ncols := 200 |}).
Proof. split; vm_compute; reflexivity. Qed.

(** What the filter does when landmark keys are missing or hold [None]:
    a missing key reads as the point (0, 0), so a detection with a
    bounding box and no landmark at all has eye distance zero and is
    skipped under the default threshold; a key that holds [None] makes
    the loop raise. *)
Lemma profile_filter_without_landmarks :
  let img := Demo.picture tt 1000 1000 in
  crop_face img default_edge_margin_ratio default_profile_threshold
    (Demo.bare_at 100 100 200 200) = Ok None
  /\ box_crop img default_edge_margin_ratio (Demo.bare_at 100 100 200 200)
     = Some {| base := tt; row0 := 100; nrows := 200;
               col0 := 100; ncols := 200 |}
  /\ crop_face img default_edge_margin_ratio default_profile_threshold
       (Demo.detection_at 100 100 200 200 (Some None) (Some None) None)
     = Err TypeError
  /\ crop_face img default_edge_margin_ratio default_profile_threshold
       (Demo.detection_at 100 100 200 200 (Some (Some (150, 180)))
          (Some (Some (250, 180))) (Some None))
     = Err IndexError.
Proof. repeat split; vm_compute; reflexivity. Qed.
End ProfileFilter.

(** ** The match decision *)

Ltac run_py :=
  unfold bind, ret, raise, lift, gets, modify, try_except; cbn beta iota.

Section Decision.
Import utils disk_ops services.
Context `{E : Externals}.

(** The loop body when [utils] has no [save_new_customer_face]. *)
Lemma recognize_face_unbound (crop : ndarray Pixels)
    (rs : list match_result) (wd : world) :
  recognize_face None crop rs wd =
    (match match_face (self_index wd) crop with
     | Err e => Err e
     | Ok (_, s, i, true) =>
         Ok (rs ++ [{| is_returning := true; similarity := s;
                       index := i; saved_path := None |}])
     | Ok (_, _, _, false) => Err AttributeError
     end, wd).
Proof.
  unfold recognize_face, enroll, report_returning, utils_getattr_save.
  run_py.
  destruct (match_face (self_index wd) crop) as [[[[emb s] i] [|]]|e];
    reflexivity.
Qed.

Lemma recognize_face_returning (b : save_binding) (crop : ndarray Pixels)
    (rs : list match_result) (wd : world) emb s i :
  match_face (self_index wd) crop = Ok (emb, s, i, true) ->
  recognize_face b crop rs wd =
    (Ok (rs ++ [{| is_returning := true; similarity := s;
                   index := i; saved_path := None |}]), wd).
Proof.
  intros Hm. unfold recognize_face, report_returning. run_py.
  now rewrite Hm.
Qed.

Lemma recognize_face_new (b : save_binding) (crop : ndarray Pixels)
    (rs : list match_result) (wd : world) emb s i :
  match_face (self_index wd) crop = Ok (emb, s, i, false) ->
  recognize_face b crop rs wd = enroll b crop emb s i rs wd.
Proof.
  intros Hm. unfold recognize_face. run_py. now rewrite Hm.
Qed.

(** Whatever [enroll] returns ends with a dictionary for a new face that
    carries the similarity and the rank it was given. *)
Lemma enroll_result (b : save_binding) (crop : ndarray Pixels) emb s i
    (rs rs' : list match_result) (wd wd' : world) :
  enroll b crop emb s i rs wd = (Ok rs', wd') ->
  exists new_path,
    rs' = rs ++ [{| is_returning := false; similarity := s;
                    index := i; saved_path := Some new_path |}].
Proof.
  unfold enroll, utils_getattr_save, on_disk. run_py.
  destruct b as [save|]; cbn; [| intros [=]].
  destruct (save crop wd) as [[p|e] wd1]; [| intros [=]].
  destruct (faiss_add (self_index wd1) emb) as [ix'|e]; [| intros [=]].
  destruct (write_index ix' FAISS_INDEX_PATH (disk wd1))
    as [[[]|e] d']; intros [= <- _]. now exists p.
Qed.

Lemma match_face_nonempty (ix : Index) (crop : ndarray Pixels) emb s i :
  ntotal ix <> 0 ->
  represent crop = Ok emb ->
  faiss_search ix emb = Ok (s, i) ->
  match_face ix crop = Ok (emb, s, i, (THRESHOLD <? s)%float).
Proof.
  intros Hn Hr Hs. unfold match_face. rewrite Hr.
  destruct (Z.eqb_spec (ntotal ix) 0); [contradiction |].
  now rewrite Hs.
Qed.

Lemma match_face_empty (ix : Index) (crop : ndarray Pixels) emb :
  ntotal ix = 0 ->
  represent crop = Ok emb ->
  match_face ix crop = Ok (emb, 0%float, -1, false).
Proof.
  intros Hn Hr. unfold match_face. rewrite Hr, Hn. reflexivity.
Qed.
End Decision.

Section Recognition.
Import utils disk_ops services.
Context `{E : Externals}.

Lemma recognize_faces_unbound_cons (c : ndarray Pixels)
    (faces : list (ndarray Pixels)) (acc : list match_result) (wd : world) :
  recognize_faces None (c :: faces) acc wd =
    match match_face (self_index wd) c with
    | Ok (_, s, i, true) =>
        recognize_faces None faces
          (acc ++ [{| is_returning := true; similarity := s;
                      index := i; saved_path := None |}]) wd
    | Ok (_, _, _, false) => (Err AttributeError, wd)
    | Err e => (Err e, wd)
    end.
Proof.
  cbn [recognize_faces]. unfold bind. rewrite recognize_face_unbound.
  destruct (match_face (self_index wd) c) as [[[[emb s] i] [|]]|e];
    reflexivity.
Qed.

Lemma recognize_faces_unbound (faces : list (ndarray Pixels)) :
  forall (acc : list match_result) (wd : world),
    snd (recognize_faces None faces acc wd) = wd
    /\ forall rs,
        fst (recognize_faces None faces acc wd) = Ok rs <->
        exists vs, mapM (returning_verdict (self_index wd)) faces = Some vs
                   /\ rs = acc ++ vs.
Proof.
  induction faces as [|c faces IH]; intros acc wd.
  - cbn. split; [reflexivity |]. intros rs. split.
    + intros [= <-]. exists []. now rewrite app_nil_r.
    + intros (vs & [= <-] & ->). now rewrite app_nil_r.
  - rewrite recognize_faces_unbound_cons.
    assert (Hv : returning_verdict (self_index wd) c =
                 match match_face (self_index wd) c with
                 | Ok (_, s, i, true) =>
                     Some {| is_returning := true; similarity := s;
                             index := i; saved_path := None |}
                 | _ => None
                 end) by reflexivity.
    destruct (match_face (self_index wd) c) as [[[[emb s] i] [|]]|e].
    + destruct (IH (acc ++ [{| is_returning := true; similarity := s;
                               index := i; saved_path := None |}]) wd)
        as [Hst Hres].
      split; [exact Hst |]. intros rs. rewrite Hres.
      setoid_rewrite mapM_Some. split.
      * intros (vs & Hvs & ->). eexists (_ :: vs).
        split; [constructor; eassumption |]. now rewrite <- app_assoc.
      * intros (vs & Hvs & ->).
        inversion Hvs as [|? r ? ws Hr Hws]; subst.
        rewrite Hv in Hr. injection Hr as <-.
        exists ws. split; [exact Hws |]. now rewrite <- app_assoc.
    + cbn [fst snd]. split; [reflexivity |]. intros rs.
      split; [discriminate |]. intros (vs & Hvs & _).
      apply mapM_Some in Hvs. inversion Hvs; subst. congruence.
    + cbn [fst snd]. split; [reflexivity |]. intros rs.
      split; [discriminate |]. intros (vs & Hvs & _).
      apply mapM_Some in Hvs. inversion Hvs; subst. congruence.
Qed.

Lemma recognize_faces_first_new (pre post : list (ndarray Pixels))
    (c : ndarray Pixels) :
  forall (acc : list match_result) (wd : world),
    Forall (fun c => is_Some (returning_verdict (self_index wd) c)) pre ->
    decided_new (self_index wd) c = true ->
    recognize_faces None (pre ++ c :: post) acc wd = (Err AttributeError, wd).
Proof.
  induction pre as [|p pre IH]; intros acc wd Hpre Hnew.
  - cbn [app]. rewrite recognize_faces_unbound_cons.
    unfold decided_new in Hnew.
    destruct (match_face (self_index wd) c) as [[[[emb s] i] [|]]|e];
      try discriminate. reflexivity.
  - inversion Hpre as [|? ? [v Hv] Hrest]; subst.
    cbn [app]. rewrite recognize_faces_unbound_cons.
    unfold returning_verdict in Hv.
    destruct (match_face (self_index wd) p) as [[[[emb s] i] [|]]|e];
      try discriminate.
    now apply IH.
Qed.

Lemma returning_verdict_is_returning (ix : Index) (c : ndarray Pixels)
    (r : match_result) :
  returning_verdict ix c = Some r -> is_returning r = true.
Proof.
  unfold returning_verdict.
  destruct (match_face ix c) as [[[[emb s] i] [|]]|e]; try discriminate.
  now intros [= <-].
Qed.

Lemma decided_new_no_verdict (ix : Index) (c : ndarray Pixels) :
  decided_new ix c = true -> returning_verdict ix c = None.
Proof.
  unfold decided_new, returning_verdict.
  now destruct (match_face ix c) as [[[[emb s] i] [|]]|e].
Qed.

(** A crop gets the Returning verdict exactly when it is embedded, the
    index is not empty and the similarity the search answers is strictly
    greater than the threshold. *)
Lemma returning_verdict_spec (ix : Index) (c : ndarray Pixels)
    (r : match_result) :
  returning_verdict ix c = Some r <->
  exists emb s i,
    represent c = Ok emb /\ ntotal ix <> 0
    /\ faiss_search ix emb = Ok (s, i)
    /\ (THRESHOLD <? s)%float = true
    /\ r = {| is_returning := true; similarity := s; index := i;
              saved_path := None |}.
Proof.
  unfold returning_verdict, match_face. split.
  - destruct (represent c) as [emb|e]; [| discriminate].
    destruct (Z.eqb_spec (ntotal ix) 0) as [Hz|Hnz]; [cbn; discriminate |].
    destruct (faiss_search ix emb) as [[s i]|e] eqn:Hs; [| discriminate].
    destruct (THRESHOLD <? s)%float eqn:Hcmp; [| discriminate].
    intros [= <-]. exists emb, s, i. repeat split; auto.
  - intros (emb & s & i & Hr & Hn & Hs & Hgt & ->). rewrite Hr.
    destruct (Z.eqb_spec (ntotal ix) 0); [contradiction |].
    now rewrite Hs, Hgt.
Qed.

(** A crop is decided New exactly when it is embedded and either the
    index is empty or the similarity the search answers is not strictly
    greater than the threshold. *)
Lemma decided_new_spec (ix : Index) (c : ndarray Pixels) :
  decided_new ix c = true <->
  exists emb,
    represent c = Ok emb
    /\ (ntotal ix = 0
        \/ (ntotal ix <> 0
            /\ exists s i, faiss_search ix emb = Ok (s, i)
                           /\ (THRESHOLD <? s)%float = false)).
Proof.
  unfold decided_new, match_face. split.
  - destruct (represent c) as [emb|e]; [| discriminate].
    intros Hnew. exists emb. split; [reflexivity |].
    destruct (Z.eqb_spec (ntotal ix) 0) as [Hz|Hnz]; [now left | right].
    split; [assumption |].
    destruct (faiss_search ix emb) as [[s i]|e] eqn:Hs; [| discriminate].
    destruct (THRESHOLD <? s)%float eqn:Hcmp; [discriminate |].
    now exists s, i.
  - intros (emb & Hr & [Hz | (Hnz & s & i & Hs & Hle)]); rewrite Hr.
    + now rewrite Hz.
    + destruct (Z.eqb_spec (ntotal ix) 0); [contradiction |].
      now rewrite Hs, Hle.
Qed.

(** C2.  [recognize_image_path] returns a list exactly when the detector
    yields the surviving crops and every one of them, in turn, is
    embedded, searched and matched against the index as it stood at the
    call; the list then holds one Returning entry per crop.  If some crop
    is decided New the call raises, with [AttributeError] when that crop
    is reached, because [utils.save_new_customer_face] does not exist.
    No call, returning or raising, changes the index or the working
    directory, and no returned entry has [is_returning = False]. *)
Theorem recognize_returns_iff_all_returning (image_path : string)
    (wd : world) :
  let detected :=
    detect_faces_and_crop image_path
      default_edge_margin_ratio default_profile_threshold in
  let ix := self_index wd in
  (forall rs,
      fst (recognize_image_path image_path wd) = Ok rs <->
      exists faces, detected = Ok faces
                    /\ mapM (returning_verdict ix) faces = Some rs)
  /\ (forall faces,
      detected = Ok faces ->
      Exists (fun c => decided_new ix c = true) faces ->
      exists e, fst (recognize_image_path image_path wd) = Err e)
  /\ (forall pre c post,
      detected = Ok (pre ++ c :: post) ->
      Forall (fun c => is_Some (returning_verdict ix c)) pre ->
      decided_new ix c = true ->
      fst (recognize_image_path image_path wd) = Err AttributeError)
  /\ snd (recognize_image_path image_path wd) = wd
  /\ (forall rs,
      fst (recognize_image_path image_path wd) = Ok rs ->
      Forall (fun r => is_returning r = true) rs)
  /\ (forall c r,
      returning_verdict ix c = Some r <->
      exists emb s i,
        represent c = Ok emb /\ ntotal ix <> 0
        /\ faiss_search ix emb = Ok (s, i)
        /\ (THRESHOLD <? s)%float = true
        /\ r = {| is_returning := true; similarity := s; index := i;
                  saved_path := None |})
  /\ (forall c,
      decided_new ix c = true <->
      exists emb,
        represent c = Ok emb
        /\ (ntotal ix = 0
            \/ (ntotal ix <> 0
                /\ exists s i, faiss_search ix emb = Ok (s, i)
                               /\ (THRESHOLD <? s)%float = false))).
Proof.
  intros detected ix.
  unfold recognize_image_path, recognize_image_path_with,
    utils_save_new_customer_face.
  unfold bind, lift. fold detected.
  assert (Hiff : forall rs,
      fst (match detected with
           | Ok a => recognize_faces None a [] wd
           | Err e => (Err e, wd)
           end) = Ok rs <->
      exists faces, detected = Ok faces
                    /\ mapM (returning_verdict ix) faces = Some rs).
  { intros rs. destruct detected as [faces|e]; cbn.
    - destruct (recognize_faces_unbound faces [] wd) as [_ Hres].
      rewrite Hres. split.
      + intros (vs & Hvs & ->). now exists faces.
      + intros (faces' & [= <-] & Hvs). now exists rs.
    - split; [discriminate | intros (faces & [=] & _)]. }
  split; [exact Hiff |]. split; [| split; [| split; [| split; [| split]]]].
  - intros faces Hd Hnew. rewrite Hd.
    destruct (fst (recognize_faces None faces [] wd)) as [rs|e] eqn:Hr;
      [| now exists e].
    exfalso. destruct (recognize_faces_unbound faces [] wd) as [_ Hres].
    apply Hres in Hr as (vs & Hvs & _).
    apply mapM_Some in Hvs.
    apply Exists_exists in Hnew as (c & Hin & Hc).
    apply list_elem_of_lookup in Hin as [k Hk].
    destruct (Forall2_lookup_l _ _ _ _ _ Hvs Hk) as (v & _ & Hv).
    pose proof (decided_new_no_verdict _ _ Hc) as Hnone.
    unfold ix in *. congruence.
  - intros pre c post Hd Hpre Hnew. rewrite Hd.
    now rewrite recognize_faces_first_new.
  - destruct detected as [faces|e]; [| reflexivity].
    apply recognize_faces_unbound.
  - intros rs Hrs. apply Hiff in Hrs as (faces & _ & Hvs).
    apply mapM_Some in Hvs.
    induction Hvs as [|c r faces rs Hc _ IH]; constructor; [| exact IH].
    eapply returning_verdict_is_returning, Hc.
  - intros c r. apply returning_verdict_spec.
  - intros c. apply decided_new_spec.
Qed.
End Recognition.

Section Threshold.
Import utils disk_ops services.
Context `{E : Externals}.

Lemma threshold_boundary :
  (THRESHOLD <? THRESHOLD)%float = false
  /\ (THRESHOLD <? 0.70001)%float = true
  /\ (THRESHOLD <? 0)%float = false.
Proof. repeat split; vm_compute; reflexivity. Qed.

(** C5.  Against a non-empty index the face is reported Returning exactly
    when the similarity of its nearest neighbour is strictly greater than
    [THRESHOLD] = 0.7: above it the loop body appends the Returning entry
    and changes nothing; otherwise it takes the branch for a new face,
    and whatever that branch reports is an entry with
    [is_returning = False].  A similarity equal to the threshold is on
    the New side. *)
Theorem returning_iff_above_threshold (b : save_binding)
    (crop : ndarray Pixels) (emb : Embedding) (s : float) (i : Z)
    (rs : list match_result) (wd : world) :
  ntotal (self_index wd) <> 0 ->
  represent crop = Ok emb ->
  faiss_search (self_index wd) emb = Ok (s, i) ->
  match_face (self_index wd) crop = Ok (emb, s, i, (THRESHOLD <? s)%float)
  /\ ((THRESHOLD <? s)%float = true ->
      recognize_face b crop rs wd =
        (Ok (rs ++ [{| is_returning := true; similarity := s;
                       index := i; saved_path := None |}]), wd))
  /\ ((THRESHOLD <? s)%float = false ->
      recognize_face b crop rs wd = enroll b crop emb s i rs wd)
  /\ (forall rs' wd',
      recognize_face b crop rs wd = (Ok rs', wd') ->
      exists r, rs' = rs ++ [r] /\ similarity r = s
                /\ (is_returning r = true <-> (THRESHOLD <? s)%float = true))
  /\ (s = THRESHOLD -> (THRESHOLD <? s)%float = false).
Proof.
  intros Hn Hr Hs.
  pose proof (match_face_nonempty _ _ _ _ _ Hn Hr Hs) as Hm.
  split; [exact Hm |]. split; [| split; [| split]].
  - intros Hgt. rewrite Hgt in Hm. now apply recognize_face_returning with emb.
  - intros Hle. rewrite Hle in Hm. now apply recognize_face_new.
  - intros rs' wd'. destruct (THRESHOLD <? s)%float eqn:Hcmp.
    + rewrite (recognize_face_returning b crop rs wd emb s i Hm).
      intros [= <- _]. eexists. split; [reflexivity |]. now split.
    + rewrite (recognize_face_new b crop rs wd emb s i Hm).
      intros Hen. apply enroll_result in Hen as [p ->].
      eexists. split; [reflexivity |]. cbn. split; [reflexivity |].
      split; discriminate.
  - intros ->. apply threshold_boundary.
Qed.

(** C6.  While the index holds no entry the search is not consulted: the
    outcome of the match is the same whatever the search would answer,
    namely similarity 0.0, rank -1 and "no match".  The loop body then
    takes the branch for a new face, whose entry, when one is reported,
    carries that similarity; as [utils] has no
    [save_new_customer_face], the branch raises [AttributeError]. *)
Theorem empty_index_means_new (b : save_binding)
    (crop : ndarray Pixels) (emb : Embedding)
    (rs : list match_result) (wd : world) :
  ntotal (self_index wd) = 0 ->
  represent crop = Ok emb ->
  match_face (self_index wd) crop = Ok (emb, 0%float, -1, false)
  /\ (forall s', @match_face (with_search E s') (self_index wd) crop
                 = match_face (self_index wd) crop)
  /\ recognize_face b crop rs wd = enroll b crop emb 0%float (-1) rs wd
  /\ (forall rs' wd',
      recognize_face b crop rs wd = (Ok rs', wd') ->
      exists new_path,
        rs' = rs ++ [{| is_returning := false; similarity := 0%float;
                        index := -1; saved_path := Some new_path |}])
  /\ recognize_face utils_save_new_customer_face crop rs wd
     = (Err AttributeError, wd).
Proof.
  intros Hn Hr.
  pose proof (match_face_empty _ _ _ Hn Hr) as Hm.
  split; [exact Hm |]. split; [| split; [| split]].
  - intros s'. unfold match_face; cbn [represent ntotal with_search].
    rewrite Hr, Hn. reflexivity.
  - now apply recognize_face_new.
  - intros rs' wd'. rewrite (recognize_face_new b crop rs wd _ _ _ Hm).
    apply enroll_result.
  - unfold utils_save_new_customer_face.
    rewrite recognize_face_unbound, Hm. reflexivity.
Qed.

(** Were the name [utils.save_new_customer_face] bound to a helper, the
    entry built for a new face would carry [is_returning = False], its
    similarity, the path the helper returned and, under ["index"], the
    rank the search gave for the nearest neighbour (-1 when the index
    was empty).  The per-face item of the batch response is a function
    of the entry's [is_returning] and [similarity] alone and carries
    both. *)
Theorem new_result_carries_neighbour_rank
    (save : ndarray Pixels -> M world string)
    (crop : ndarray Pixels) (emb : Embedding) (s : float) (i : Z)
    (rs : list match_result) (wd wd1 : world) (new_path : string)
    (ix' : Index) (d' : gmap string node) :
  match_face (self_index wd) crop = Ok (emb, s, i, false) ->
  save crop wd = (Ok new_path, wd1) ->
  faiss_add (self_index wd1) emb = Ok ix' ->
  write_index ix' FAISS_INDEX_PATH (disk wd1) = (Ok tt, d') ->
  recognize_face (Some save) crop rs wd =
    (Ok (rs ++ [{| is_returning := false; similarity := s;
                   index := i; saved_path := Some new_path |}]),
     {| self_index := ix'; disk := d'; clock := clock wd1 |})
  /\ (ntotal (self_index wd) = 0 -> s = 0%float /\ i = -1)
  /\ (ntotal (self_index wd) <> 0 ->
      faiss_search (self_index wd) emb = Ok (s, i))
  /\ (forall r1 r2 : match_result,
      is_returning r1 = is_returning r2 ->
      similarity r1 = similarity r2 ->
      models.RecognizeItem_of r1 = models.RecognizeItem_of r2)
  /\ (forall r : match_result,
      models.is_returning (models.RecognizeItem_of r) = is_returning r
      /\ models.similarity (models.RecognizeItem_of r) = similarity r).
Proof.
  intros Hm Hsave Hadd Hwrite.
  split; [| split; [| split; [| split]]].
  - rewrite (recognize_face_new (Some save) crop rs wd emb s i Hm).
    unfold enroll, utils_getattr_save, on_disk. run_py.
    rewrite Hsave, Hadd. cbn. rewrite Hwrite. reflexivity.
  - intros Hn. unfold match_face in Hm.
    destruct (represent crop) as [emb0|e]; [| discriminate].
    rewrite Hn in Hm. cbn [Z.eqb] in Hm.
    injection Hm; intros; subst; split; reflexivity.
  - intros Hn. unfold match_face in Hm.
    destruct (represent crop) as [emb0|e]; [| discriminate].
    destruct (Z.eqb_spec (ntotal (self_index wd)) 0); [contradiction |].
    destruct (faiss_search (self_index wd) emb0) as [[s0 i0]|e] eqn:Hs0;
      [| discriminate].
    injection Hm; intros; subst; exact Hs0.
  - intros r1 r2 Hr Hs. unfold models.RecognizeItem_of. now rewrite Hr, Hs.
  - intros r. split; reflexivity.
Qed.
End Threshold.

(** ** The index loader *)

Section IndexLoader.
Import utils disk_ops utils_io.
Context `{E : Externals}.

Lemma customer_dir_is_not_the_index : CUSTOMER_DIR <> FAISS_INDEX_PATH.
Proof. discriminate. Qed.

(** What the loader does, case by case. *)
Lemma load_or_create_index_cases (d : gmap string node) :
  load_or_create_index d =
    match d !! CUSTOMER_DIR with
    | Some Dir =>
        match d !! FAISS_INDEX_PATH with
        | None => (Err FileNotFoundError, d)
        | Some (IndexFile ix) => (Ok ix, d)
        | Some _ => (Err RuntimeError, d)
        end
    | None =>
        match d !! FAISS_INDEX_PATH with
        | None => (Err FileNotFoundError, <[CUSTOMER_DIR := Dir]> d)
        | Some (IndexFile ix) => (Ok ix, <[CUSTOMER_DIR := Dir]> d)
        | Some _ => (Err RuntimeError, <[CUSTOMER_DIR := Dir]> d)
        end
    | Some _ => (Err FileExistsError, d)
    end.
Proof.
  unfold load_or_create_index, ensure_customer_dir_exists, isdir, makedirs,
    exists_, read_index.
  run_py.
  destruct (d !! CUSTOMER_DIR) as [[]|] eqn:Hdir; cbn; try reflexivity.
  - destruct (d !! FAISS_INDEX_PATH) as [[]|] eqn:Hfile; cbn;
      rewrite ?Hfile; reflexivity.
  - pose proof (lookup_insert_ne d CUSTOMER_DIR FAISS_INDEX_PATH Dir
                  customer_dir_is_not_the_index) as Hother.
    rewrite Hother.
    destruct (d !! FAISS_INDEX_PATH) as [[]|] eqn:Hfile; cbn;
      rewrite ?Hother, ?Hfile; reflexivity.
Qed.

End IndexLoader.

(** ** The batch endpoint *)

Section Batch.
Import utils services models api.
Context `{E : Externals}.

Lemma process_upload_entry (name : string) (f : fastapi.UploadFile)
    (wd wd' : world) (entry : RecognizePerImage) :
  process_upload name f wd = (Ok entry, wd') ->
  filename entry = name
  /\ (payload_unusable f = true -> entry = no_faces name).
Proof.
  unfold process_upload, payload_unusable, lift, fresh_name. run_py.
  destruct (fastapi.read f) as [data|e]; [| intros [=]].
  destruct (length data =? 0)%nat; cbn [orb].
  { intros [= <- _]. now split. }
  destruct (imdecode data) as [img|].
  2: { intros [= <- _]. now split. }
  destruct (imwrite _ img) as [[]|e]; [| intros [=]].
  destruct (recognize_image_path _ _) as [[raw|e] wd1]; intros [= <- _].
  split; [reflexivity | discriminate].
Qed.

(** One turn of the loop always appends an entry, under the name of the
    upload, and the entry is the empty one whenever the upload failed. *)
Lemma handle_upload_total (f : fastapi.UploadFile) (wd : world) :
  exists entry wd',
    handle_upload f wd = (Ok entry, wd')
    /\ filename entry = upload_name f
    /\ (upload_failed f wd = true -> entry = no_faces (upload_name f)).
Proof.
  unfold handle_upload, upload_failed, upload_name.
  destruct (fastapi.filename f) as [[|a name]|].
  - exists (no_faces ""), wd. now repeat split.
  - unfold try_except.
    destruct (process_upload (String a name) f wd) as [[entry|e] wd1]
      eqn:Hrun.
    + exists entry, wd1. apply process_upload_entry in Hrun as [Hn Hbad].
      repeat split; [exact Hn |]. cbn [fst is_ok negb].
      rewrite orb_false_r. exact Hbad.
    + exists (no_faces (String a name)), wd1. now repeat split.
  - exists (no_faces ""), wd. now repeat split.
Qed.

Lemma handle_uploads_served (files : list fastapi.UploadFile) :
  forall (outputs : list RecognizePerImage) (wd : world),
  exists entries wd',
    handle_uploads files outputs wd = (Ok (outputs ++ entries), wd')
    /\ served files wd entries wd'.
Proof.
  induction files as [|f files IH]; intros outputs wd.
  - exists [], wd. cbn. rewrite app_nil_r. split; [reflexivity | constructor].
  - destruct (handle_upload_total f wd) as (entry & wd1 & Hf & _).
    destruct (IH (outputs ++ [entry]) wd1) as (entries & wd2 & Hrest & Hs).
    exists (entry :: entries), wd2. split.
    + cbn [handle_uploads]. unfold bind. rewrite Hf, Hrest.
      now rewrite <- app_assoc.
    + econstructor; eassumption.
Qed.

Lemma served_names (files : list fastapi.UploadFile) (wd wd' : world)
    (entries : list RecognizePerImage) :
  served files wd entries wd' ->
  length entries = length files
  /\ map filename entries = map upload_name files.
Proof.
  induction 1 as [|f rest wd entry wd1 entries wd2 Hf _ [IHl IHn]].
  - now split.
  - destruct (handle_upload_total f wd) as (entry' & wd1' & Hf' & Hn & _).
    rewrite Hf in Hf'. injection Hf' as <- <-.
    cbn. split; congruence.
Qed.

(** A request without uploads is refused with status 400; nothing
    changes. *)
Lemma empty_batch_is_refused (p : process) :
  recognize_batch [] p = (Err (HTTPException 400), p).
Proof. reflexivity. Qed.

(** C8.  Once the service object exists, a batch of at least one upload
    is answered with a response that holds one entry per upload, in the
    order of submission and under the upload's file name: the uploads
    are handled one after the other, each turn appends exactly one entry
    and none raises.  An upload without a file name, with an unreadable,
    empty or undecodable payload, or whose processing raises, gets the
    entry with zero faces and no results. *)
Theorem batch_has_one_entry_per_upload
    (files : list fastapi.UploadFile) (p p1 : process) (ix : Index) :
  files <> [] ->
  instance p = (Ok ix, p1) ->
  exists outputs wd',
    recognize_batch files p =
      (Ok {| items := outputs |},
       {| _instance := Some (self_index wd');
          services.files := disk wd'; names := clock wd' |})
    /\ served files
         {| self_index := ix; disk := services.files p1; clock := names p1 |}
         outputs wd'
    /\ length outputs = length files
    /\ map filename outputs = map upload_name files
    /\ (forall f wd entry wd1,
        handle_upload f wd = (Ok entry, wd1) ->
        upload_failed f wd = true ->
        entry = no_faces (upload_name f)
        /\ num_faces entry = 0 /\ results entry = [])
    /\ (forall f wd, is_ok (fst (handle_upload f wd)) = true).
Proof.
  intros Hne Hinst.
  destruct (handle_uploads_served files []
              {| self_index := ix; disk := services.files p1;
                 clock := names p1 |})
    as (outputs & wd' & Hrun & Hserved).
  exists outputs, wd'.
  destruct (served_names _ _ _ _ Hserved) as [Hlen Hnames].
  split; [| split; [exact Hserved | split; [exact Hlen | split;
    [exact Hnames | split]]]].
  - unfold recognize_batch. destruct files as [|f files]; [contradiction |].
    unfold bind. rewrite Hinst, Hrun. reflexivity.
  - intros f wd entry wd1 Hf Hfail.
    destruct (handle_upload_total f wd) as (entry' & wd1' & Hf' & _ & Hz).
    rewrite Hf in Hf'. injection Hf' as <- <-.
    rewrite (Hz Hfail). now repeat split.
  - intros f wd.
    destruct (handle_upload_total f wd) as (entry & wd1 & -> & _).
    reflexivity.
Qed.
End Batch.

(** ** The program on the concrete world *)

Section Examples.
Import utils disk_ops utils_io services api.

(** C1 fails on the code.  A crop that is decided New makes the loop body
    raise [AttributeError] where it looks up
    [utils.save_new_customer_face]: nothing is saved, the index is not
    appended to, no index file is written and no entry is reported.
    So it is for a visitor unknown to an index of one entry, and for a
    visitor met with an empty index. *)
Theorem new_face_raises_instead_of_enrolling :
  (forall (E : Externals) (wd : world) crop rs,
      decided_new (self_index wd) crop = true ->
      recognize_face utils_save_new_customer_face crop rs wd
      = (Err AttributeError, wd))
  /\ (let wd := Demo.world_with Demo.stranger_index in
      @detect_faces_and_crop Demo.externals "visitor.jpg"
        default_edge_margin_ratio default_profile_threshold
      = Ok [Demo.face_crop]
      /\ @match_face Demo.externals (self_index wd) Demo.face_crop
         = Ok ([1%float; 0%float], 0%float, 0, false)
      /\ @recognize_image_path Demo.externals "visitor.jpg" wd
         = (Err AttributeError, wd))
  /\ (let wd := Demo.world_with [] in
      @match_face Demo.externals (self_index wd) Demo.face_crop
      = Ok ([1%float; 0%float], 0%float, -1, false)
      /\ @recognize_image_path Demo.externals "visitor.jpg" wd
         = (Err AttributeError, wd)).
Proof.
  split; [| split].
  - intros E wd crop rs Hnew. unfold utils_save_new_customer_face.
    rewrite recognize_face_unbound. unfold decided_new in Hnew.
    destruct (match_face (self_index wd) crop) as [[[[emb s] i] [|]]|e];
      try discriminate. reflexivity.
  - repeat split; vm_compute; reflexivity.
  - repeat split; vm_compute; reflexivity.
Qed.

(** C4 fails on the code.  Two uploads that show the same unknown person
    are both answered with an empty entry: the first is decided New and
    raises, so nothing is enrolled, and the second meets the index as it
    was and raises in turn.  The index still holds its one entry. *)
Theorem same_new_face_twice_is_never_matched :
  let batch := [Demo.upload "first.jpg" [Byte.x01];
                Demo.upload "second.jpg" [Byte.x01]] in
  let p := Demo.started_with Demo.stranger_index in
  @recognize_batch Demo.externals batch p
  = (Ok {| models.items := [no_faces "first.jpg"; no_faces "second.jpg"] |},
     {| _instance := Some Demo.stranger_index;
        services.files := Demo.directory_with Demo.stranger_index;
        names := 2 |})
  /\ @recognize_faces Demo.externals utils_save_new_customer_face
       [Demo.face_crop; Demo.face_crop] []
       (Demo.world_with Demo.stranger_index)
     = (Err AttributeError, Demo.world_with Demo.stranger_index).
Proof. split; vm_compute; reflexivity. Qed.

(** Were the name [utils.save_new_customer_face] bound to a helper that
    stores the crop, the loop would thread the index as C4 expects: the
    first of two crops of the same unknown face is enrolled, at rank 1
    of an index that held one entry, and the second is matched with it,
    with similarity 1 and matched rank 1. *)
Lemma enrolled_face_is_visible_to_the_next :
  let run := @recognize_faces Demo.externals
               (Some Demo.save_under_customer_dir)
               [Demo.face_crop; Demo.face_crop] []
               (Demo.world_with Demo.stranger_index) in
  fst run = Ok [{| is_returning := false; similarity := 0%float; index := 0;
                   saved_path := Some "known_faces/customer_2.jpg"%string |};
                {| is_returning := true; similarity := 1%float; index := 1;
                   saved_path := None |}]
  /\ self_index (snd run) = [[0%float; 1%float]; [1%float; 0%float]]
  /\ disk (snd run) !! FAISS_INDEX_PATH
     = Some (@IndexFile Demo.externals
               [[0%float; 1%float]; [1%float; 0%float]]).
Proof. repeat split; vm_compute; reflexivity. Qed.


(** [RecognizeItem] declares the decision and the similarity only: two
    service results that differ in nothing but the saved path give the
    same item. *)
Lemma api_item_drops_saved_path :
  let r1 := {| is_returning := false; similarity := 0%float; index := -1;
               saved_path := Some "known_faces/a.jpg"%string |} in
  let r2 := {| is_returning := false; similarity := 0%float; index := -1;
               saved_path := Some "known_faces/b.jpg"%string |} in
  saved_path r1 <> saved_path r2
  /\ models.RecognizeItem_of r1 = models.RecognizeItem_of r2.
Proof. split; [discriminate | reflexivity]. Qed.

Lemma new_result_carries_neighbour_rank_witness :
  let run := @recognize_face Demo.externals
               (Some Demo.save_under_customer_dir) Demo.face_crop []
               (Demo.world_with Demo.stranger_index) in
  fst run = Ok [{| is_returning := false; similarity := 0%float; index := 0;
                   saved_path := Some "known_faces/customer_2.jpg"%string |}]
  /\ self_index (snd run) = [[0%float; 1%float]; [1%float; 0%float]].
Proof.
  intros run. unfold run.
  rewrite (proj1 (@new_result_carries_neighbour_rank Demo.externals
    Demo.save_under_customer_dir Demo.face_crop [1%float; 0%float]
    0%float 0 [] (Demo.world_with Demo.stranger_index)
    (snd (Demo.save_under_customer_dir Demo.face_crop
            (Demo.world_with Demo.stranger_index)))
    "known_faces/customer_2.jpg"
    [[0%float; 1%float]; [1%float; 0%float]]
    (snd (@write_index Demo.externals
            [[0%float; 1%float]; [1%float; 0%float]] FAISS_INDEX_PATH
            (disk (snd (Demo.save_under_customer_dir Demo.face_crop
                          (Demo.world_with Demo.stranger_index))))))
    ltac:(vm_compute; reflexivity) ltac:(vm_compute; reflexivity)
    ltac:(vm_compute; reflexivity) ltac:(vm_compute; reflexivity))).
  split; reflexivity.
Defined.

Lemma returning_iff_above_threshold_witness :
  @recognize_face Demo.externals utils_save_new_customer_face
    Demo.face_crop [] (Demo.world_with Demo.familiar_index)
  = (Ok [{| is_returning := true; similarity := 1%float; index := 0;
            saved_path := None |}],
     Demo.world_with Demo.familiar_index).
Proof.
  refine (proj1 (proj2 (@returning_iff_above_threshold Demo.externals
    utils_save_new_customer_face Demo.face_crop [1%float; 0%float]
    1%float 0 [] (Demo.world_with Demo.familiar_index) _ _ _)) _).
  - vm_compute. discriminate.
  - reflexivity.
  - vm_compute. reflexivity.
  - vm_compute. reflexivity.
Defined.

Lemma empty_index_means_new_witness :
  @match_face Demo.externals [] Demo.face_crop
  = Ok ([1%float; 0%float], 0%float, -1, false)
  /\ @recognize_face Demo.externals utils_save_new_customer_face
       Demo.face_crop [] (Demo.world_with [])
     = (Err AttributeError, Demo.world_with []).
Proof.
  pose proof (@empty_index_means_new Demo.externals
    utils_save_new_customer_face Demo.face_crop [1%float; 0%float] []
    (Demo.world_with []) ltac:(reflexivity) ltac:(reflexivity))
    as (Hmatch & _ & _ & _ & Hraise).
  split; [exact Hmatch | exact Hraise].
Defined.

(** The loader on two concrete directories: an empty one, and one that
    holds a saved index. *)
Lemma index_construction_examples :
  @load_or_create_index Demo.externals ∅
  = (Err FileNotFoundError, <[CUSTOMER_DIR := @Dir Demo.externals]> ∅)
  /\ @load_or_create_index Demo.externals
       (Demo.directory_with Demo.familiar_index)
     = (Ok Demo.familiar_index, Demo.directory_with Demo.familiar_index)
  /\ @instance Demo.externals
       {| _instance := None; services.files := ∅; names := 0 |}
     = (Err FileNotFoundError,
        {| _instance := None;
           services.files := <[CUSTOMER_DIR := @Dir Demo.externals]> ∅;
           names := 0 |}).
Proof. repeat split; vm_compute; reflexivity. Qed.

Lemma batch_has_one_entry_per_upload_witness :
  let batch := [Demo.upload "known.jpg" [Byte.x01];
                Demo.upload "broken.jpg" [Byte.x00];
                Demo.upload "" [Byte.x01];
                Demo.upload "empty.jpg" [];
                {| fastapi.filename := Some "unread.jpg"%string;
                   fastapi.read := Err (LibraryError "ClientDisconnect") |};
                Demo.upload "again.jpg" [Byte.x02]] in
  exists outputs,
    fst (@recognize_batch Demo.externals batch
           (Demo.started_with Demo.familiar_index))
    = Ok {| models.items := outputs |}
    /\ length outputs = 6%nat
    /\ map models.filename outputs
       = ["known.jpg"; "broken.jpg"; ""; "empty.jpg"; "unread.jpg";
          "again.jpg"]%string.
Proof.
  intros batch.
  destruct (@batch_has_one_entry_per_upload Demo.externals batch
              (Demo.started_with Demo.familiar_index)
              (Demo.started_with Demo.familiar_index)
              Demo.familiar_index ltac:(discriminate) ltac:(reflexivity))
    as (outputs & wd' & Hrun & _ & Hlen & Hnames & _).
  exists outputs. rewrite Hrun. split; [reflexivity |].
  split; [exact Hlen | exact Hnames].
Defined.

(** The same batch, evaluated: the known face is Returning in the first
    and the last picture, and the four failed uploads in between leave
    empty entries. *)
Lemma batch_example :
  fst (@recognize_batch Demo.externals
         [Demo.upload "known.jpg" [Byte.x01];
          Demo.upload "broken.jpg" [Byte.x00];
          Demo.upload "" [Byte.x01];
          Demo.upload "empty.jpg" [];
          {| fastapi.filename := Some "unread.jpg"%string;
             fastapi.read := Err (LibraryError "ClientDisconnect") |};
          Demo.upload "again.jpg" [Byte.x02]]
         (Demo.started_with Demo.familiar_index))
  = Ok {| models.items :=
      [{| models.filename := "known.jpg"; models.num_faces := 1;
          models.results := [{| models.is_returning := true;
                         models.similarity := 1%float |}] |};
       no_faces "broken.jpg"; no_faces ""; no_faces "empty.jpg";
       no_faces "unread.jpg";
       {| models.filename := "again.jpg"; models.num_faces := 1;
          models.results := [{| models.is_returning := true;
                         models.similarity := 1%float |}] |}] |}.
Proof. vm_compute. reflexivity. Qed.
End Examples.

(** * Further properties of the code *)

(** ** The face candidate filter *)

Section FilterInvariants.
Import utils.

Lemma slice_bounds_within (n a b : Z) :
  0 <= n ->
  0 <= fst (slice_bounds n a b)
  /\ 0 <= snd (slice_bounds n a b)
  /\ fst (slice_bounds n a b) + snd (slice_bounds n a b) <= n.
Proof.
  intros Hn. unfold slice_bounds, slice_index. cbn [fst snd].
  destruct (Z.ltb_spec a 0), (Z.ltb_spec b 0); lia.
Qed.

Lemma box_crop_within {P} (img : ndarray P) (r : float) (face : detection)
    (c : ndarray P) :
  0 <= nrows img -> 0 <= ncols img ->
  box_crop img r face = Some c -> within img c.
Proof.
  intros Hr Hc. unfold box_crop, shape.
  destruct (bounding_box face) as [[[x y] fw] fh].
  destruct ((fw <=? 0) || (fh <=? 0)); [discriminate |].
  destruct (near_edge _ _ _ _ _ _ _); [discriminate |].
  destruct (Z.eqb_spec (size_of (slice2 img y (y + fh) x (x + fw))) 0)
    as [|Hsize]; [discriminate |].
  intros [= <-]. revert Hsize. unfold within, size_of, slice2.
  pose proof (slice_bounds_within (nrows img) y (y + fh) Hr) as Hrows.
  pose proof (slice_bounds_within (ncols img) x (x + fw) Hc) as Hcols.
  destruct (slice_bounds (nrows img) y (y + fh)) as [r0 nr].
  destruct (slice_bounds (ncols img) x (x + fw)) as [c0 nc].
  cbn [fst snd base row0 nrows col0 ncols] in *. intros Hsize.
  repeat split; try lia; nia.
Qed.

Lemma crop_face_within {P} (img : ndarray P) (r t : float) (face : detection)
    (c : ndarray P) :
  0 <= nrows img -> 0 <= ncols img ->
  crop_face img r t face = Ok (Some c) -> within img c.
Proof.
  intros Hr Hc. unfold crop_face.
  destruct (box_crop img r face) as [crop|] eqn:Hbox; [| discriminate].
  destruct (side_profile t _) as [[|]|e]; try discriminate.
  intros [= <-]. eapply box_crop_within; eassumption.
Qed.

Lemma crop_faces_within {P} (img : ndarray P) (r t : float)
    (detections : list detection) :
  0 <= nrows img -> 0 <= ncols img ->
  forall acc out,
    Forall (within img) acc ->
    crop_faces img r t detections acc = Ok out ->
    Forall (within img) out.
Proof.
  intros Hr Hc. induction detections as [|d ds IH]; intros acc out Hacc.
  - cbn. now intros [= <-].
  - cbn [crop_faces].
    destruct (crop_face img r t d) as [[c|]|e] eqn:Hd; [| | discriminate].
    + apply IH. apply Forall_app. split; [exact Hacc |].
      constructor; [| constructor]. eapply crop_face_within; eassumption.
    + now apply IH.
Qed.

(** X1.  Every crop [detect_faces_and_crop] returns is a window on the
    picture it read: it shares the picture's buffer, lies inside the
    picture and holds at least one pixel, whatever boxes the detector
    reported and whatever the two ratios are. *)
Theorem detected_crops_lie_within_the_picture `{E : Externals}
    (img_path : string) (r t : float) (img : ndarray Pixels)
    (crops : list (ndarray Pixels)) :
  imread img_path = Some img ->
  0 <= nrows img -> 0 <= ncols img ->
  detect_faces_and_crop img_path r t = Ok crops ->
  Forall (within img) crops.
Proof.
  intros Himg Hr Hc. unfold detect_faces_and_crop. rewrite Himg.
  destruct (extract_faces img_path) as [ds|e]; [| discriminate].
  now apply crop_faces_within.
Qed.

Lemma crop_faces_acc {P} (img : ndarray P) (r t : float)
    (detections : list detection) :
  forall acc,
    crop_faces img r t detections acc =
      match crop_faces img r t detections [] with
      | Ok out => Ok (acc ++ out)
      | Err e => Err e
      end.
Proof.
  induction detections as [|d ds IH]; intros acc.
  - cbn. now rewrite app_nil_r.
  - cbn [crop_faces]. destruct (crop_face img r t d) as [[c|]|e].
    + rewrite (IH (acc ++ [c])), (IH ([] ++ [c])).
      destruct (crop_faces img r t ds []); [| reflexivity].
      now rewrite <- app_assoc.
    + apply IH.
    + reflexivity.
Qed.

(** X2.  The crops come out in the order of the detections, at most one
    per detection: the call returns [out] exactly when every detection is
    judged without an exception, and [out] is then the list of the crops
    of the detections that were kept.  In particular there are never more
    crops than detections. *)
Theorem crops_follow_detection_order {P} (img : ndarray P) (r t : float)
    (detections : list detection) (out : list (ndarray P)) :
  (crop_faces img r t detections [] = Ok out <->
   exists verdicts,
     Forall2 (fun d v => crop_face img r t d = Ok v) detections verdicts
     /\ out = omap id verdicts)
  /\ (crop_faces img r t detections [] = Ok out ->
      (length out <= length detections)%nat).
Proof.
  assert (Hiff : forall ds o,
    crop_faces img r t ds [] = Ok o <->
    exists vs, Forall2 (fun d v => crop_face img r t d = Ok v) ds vs
               /\ o = omap id vs).
  { induction ds as [|d ds IH]; intros o.
    - cbn. split.
      + intros [= <-]. exists []. split; [constructor | reflexivity].
      + intros (vs & Hvs & ->). inversion Hvs; subst. reflexivity.
    - cbn [crop_faces]. split.
      + destruct (crop_face img r t d) as [[c|]|e] eqn:Hd; [| | discriminate].
        * rewrite crop_faces_acc.
          destruct (crop_faces img r t ds []) as [o'|] eqn:Hds;
            [| discriminate].
          intros [= <-].
          destruct (proj1 (IH o') eq_refl) as (vs & Hvs & ->).
          exists (Some c :: vs). split; [now constructor | reflexivity].
        * intros Hds. apply IH in Hds as (vs & Hvs & ->).
          exists (None :: vs). split; [now constructor | reflexivity].
      + intros (vs & Hvs & ->).
        inversion Hvs as [|? v ? vs' Hd Hrest]; subst. rewrite Hd.
        assert (Hds : crop_faces img r t ds [] = Ok (omap id vs'))
          by (apply IH; now exists vs').
        destruct v as [c|]; [| exact Hds].
        rewrite crop_faces_acc, Hds. reflexivity. }
  split; [apply Hiff |].
  intros Hout. apply Hiff in Hout as (vs & Hvs & ->).
  rewrite (Forall2_length _ _ _ Hvs). clear Hvs.
  induction vs as [|[c|] vs IH]; cbn; lia.
Qed.

(** X3.  For a detection whose box keys hold integers and whose
    landmarks, where they are points, are points of the picture
    (coordinates at most 2^25 in absolute value), the filter raises only
    when the detection passes the size and edge tests and stores [None]
    under a landmark key: [TypeError] when an eye is [None], [IndexError]
    when both eyes are points and the nose is [None].  A detection that
    fails the size or edge test is skipped without its landmarks being
    looked at. *)
Theorem filter_raises_only_on_none_landmarks {P} (img : ndarray P)
    (r t : float) (face : detection) (e : exn) :
  pixel_landmarks face ->
  crop_face img r t face = Err e <->
  exists crop lm,
    box_crop img r face = Some crop
    /\ facial_area face = Some lm
    /\ ((e = TypeError
         /\ (fa.left_eye lm = Some None \/ fa.right_eye lm = Some None))
        \/ (e = IndexError
            /\ fa.left_eye lm <> Some None /\ fa.right_eye lm <> Some None
            /\ fa.nose lm = Some None)).
Proof.
  intros _. unfold crop_face. split.
  - destruct (box_crop img r face) as [crop|] eqn:Hbox; [| discriminate].
    destruct (facial_area face) as [lm|] eqn:Hfa; cbn [fa.get].
    2: { cbn. discriminate. }
    unfold side_profile, landmark_array.
    destruct (fa.nonempty lm); [| discriminate].
    destruct (fa.left_eye lm) as [[le|]|] eqn:Hl;
      destruct (fa.right_eye lm) as [[re|]|] eqn:Hr;
      destruct (fa.nose lm) as [[n|]|] eqn:Hn; cbn [fa.get]; cbv zeta;
      try (destruct (t <? _)%float; discriminate);
      intros [= <-]; exists crop, lm;
      (split; [reflexivity | split; [reflexivity |]]);
      try (left; split; [reflexivity |]; (now left) || (now right));
      right; repeat split; first [assumption | congruence].
  - intros (crop & lm & Hbox & Hfa & Hcase). rewrite Hbox, Hfa. cbn [fa.get].
    unfold side_profile, landmark_array.
    assert (Hne : fa.nonempty lm = true).
    { unfold fa.nonempty.
      destruct Hcase as [(_ & [H|H]) | (_ & _ & _ & H)]; rewrite H; cbn;
        now rewrite ?orb_true_r. }
    rewrite Hne.
    destruct Hcase as [(-> & [H|H]) | (-> & Hl & Hr & Hn)].
    + rewrite H. cbn. reflexivity.
    + rewrite H. cbn. now destruct (fa.get (fa.left_eye lm) _).
    + rewrite Hn. cbn [fa.get].
      destruct (fa.left_eye lm) as [[le|]|]; try done;
        destruct (fa.right_eye lm) as [[re|]|]; done.
Qed.

(** X4.  One detection that raises loses the whole picture: if the
    detections before it are judged without an exception, the loop raises
    that exception and returns none of the crops gathered so far. *)
Theorem one_raising_detection_aborts_the_picture {P} (img : ndarray P)
    (r t : float) (pre post : list detection) (d : detection) (e : exn)
    (acc : list (ndarray P)) :
  Forall (fun d' => is_ok (crop_face img r t d') = true) pre ->
  crop_face img r t d = Err e ->
  crop_faces img r t (pre ++ d :: post) acc = Err e.
Proof.
  intros Hpre Hd. revert acc.
  induction Hpre as [|d' pre Hd' _ IH]; intros acc; cbn [app crop_faces].
  - now rewrite Hd.
  - destruct (crop_face img r t d') as [[c|]|e']; try discriminate; apply IH.
Qed.

(** X5.  A detection without the ["facial_area"] key, without its ["w"] or
    ["h"] key, or with a width or height that is not positive is skipped:
    the missing keys read as 0, and no exception is raised whatever the
    landmarks hold. *)
Theorem detection_without_box_is_skipped {P} (img : ndarray P) (r t : float)
    (face : detection) :
  (facial_area face = None
   \/ exists lm, facial_area face = Some lm
        /\ (fa.w lm = None \/ fa.h lm = None
            \/ (exists v, fa.w lm = Some v /\ v <= 0)
            \/ (exists v, fa.h lm = Some v /\ v <= 0))) ->
  crop_face img r t face = Ok None.
Proof.
  intros Hcase. unfold crop_face, box_crop, shape, bounding_box.
  assert (Hbox : (fa.get (fa.w (fa.get (facial_area face) fa.empty)) 0 <=? 0)
                 || (fa.get (fa.h (fa.get (facial_area face) fa.empty)) 0 <=? 0)
                 = true).
  { destruct Hcase as [-> | (lm & -> & Hlm)]; [reflexivity |]. cbn [fa.get].
    destruct Hlm as [-> | [-> | [(v & -> & Hv) | (v & -> & Hv)]]];
      cbn [fa.get]; rewrite ?orb_true_r; try reflexivity.
    - apply orb_true_iff. left. now apply Z.leb_le.
    - apply orb_true_iff. right. now apply Z.leb_le. }
  now rewrite Hbox.
Qed.
End FilterInvariants.

(** ** The index loader, the service object and the reload *)

Section ServiceLifecycle.
Import utils disk_ops utils_io services.
Context `{E : Externals}.

(** X6.  Loading the index writes nothing but the customer directory: every
    other path, the index path among them, names after the call what it
    named before, the customer directory is created only when its name was
    free, and it exists after every successful load.  Loading again from
    the directory so left gives the same answer and changes nothing. *)
Theorem loader_only_creates_the_customer_dir (d : gmap string node) :
  let r := load_or_create_index d in
  (forall p, p <> CUSTOMER_DIR -> snd r !! p = d !! p)
  /\ (snd r !! CUSTOMER_DIR = d !! CUSTOMER_DIR
      \/ (d !! CUSTOMER_DIR = None /\ snd r !! CUSTOMER_DIR = Some Dir))
  /\ (is_ok (fst r) = true -> snd r !! CUSTOMER_DIR = Some Dir)
  /\ load_or_create_index (snd r) = r.
Proof.
  cbv zeta.
  pose proof (lookup_insert_ne d CUSTOMER_DIR FAISS_INDEX_PATH Dir
                customer_dir_is_not_the_index) as Hother.
  pose proof (lookup_insert_eq d CUSTOMER_DIR Dir) as Hsame.
  rewrite (load_or_create_index_cases d).
  destruct (d !! CUSTOMER_DIR) as [[]|] eqn:Hdir;
    destruct (d !! FAISS_INDEX_PATH) as [[]|] eqn:Hfile; cbn [fst snd is_ok];
    (split; [intros p Hp; now rewrite ?lookup_insert_ne by congruence |]);
    (split; [first [now left | right; now split] |]);
    (split; [first [discriminate | intros _; first [assumption | exact Hsame]] |]);
    rewrite load_or_create_index_cases, ?Hsame, ?Hother, ?Hdir, ?Hfile;
    reflexivity.
Qed.

(** X7.  A regular file under the name of the customer directory blocks the
    loader: it raises [FileExistsError] and changes nothing, whether or not
    a saved index is present. *)
Theorem file_named_as_customer_dir_blocks_loading (d : gmap string node)
    (n : node) :
  d !! CUSTOMER_DIR = Some n ->
  n <> Dir ->
  load_or_create_index d = (Err FileExistsError, d).
Proof.
  intros Hn Hdir. rewrite load_or_create_index_cases, Hn.
  now destruct n.
Qed.

(** X8.  The service object is created once.  After a successful
    [instance()] the class keeps the index it loaded, and every later
    [instance()] returns that same index without reading or writing the
    working directory, whatever has become of the directory meanwhile.
    After a failed one the class still has no object, so the next call
    loads again. *)
Theorem instance_is_created_once (p p1 : process) :
  (forall ix,
      instance p = (Ok ix, p1) ->
      _instance p1 = Some ix
      /\ forall d n, instance (running ix d n) = (Ok ix, running ix d n))
  /\ (forall e,
      instance p = (Err e, p1) ->
      _instance p = None /\ _instance p1 = None
      /\ load_or_create_index (files p) = (Err e, files p1)).
Proof.
  unfold instance, init. split.
  - intros ix. destruct (_instance p) as [ix0|] eqn:Hinst.
    + intros [= <- <-]. split; [exact Hinst | reflexivity].
    + destruct (load_or_create_index (files p)) as [[ix1|e] d] eqn:Hload;
        [| discriminate].
      intros [= <- <-]. split; reflexivity.
  - intros e. destruct (_instance p) as [ix0|] eqn:Hinst; [discriminate |].
    destruct (load_or_create_index (files p)) as [[ix1|e1] d] eqn:Hload;
      [discriminate |].
    intros [= <- <-]. repeat split.
Qed.

(** X9.  [reload_index] either fails and keeps the index the service had,
    or succeeds, and then the service holds exactly the index saved at the
    index path and the number returned is its entry count.  In both cases
    the index file itself is left as it was. *)
Theorem reload_keeps_or_replaces_the_index (wd : world) :
  (forall e wd',
      reload_index wd = (Err e, wd') -> self_index wd' = self_index wd)
  /\ (forall n wd',
      reload_index wd = (Ok n, wd') ->
      disk wd !! FAISS_INDEX_PATH = Some (IndexFile (self_index wd'))
      /\ n = ntotal (self_index wd'))
  /\ disk (snd (reload_index wd)) !! FAISS_INDEX_PATH
     = disk wd !! FAISS_INDEX_PATH.
Proof.
  assert (Hfile : snd (load_or_create_index (disk wd)) !! FAISS_INDEX_PATH
                  = disk wd !! FAISS_INDEX_PATH).
  { rewrite load_or_create_index_cases.
    destruct (disk wd !! CUSTOMER_DIR) as [[]|];
      destruct (disk wd !! FAISS_INDEX_PATH) as [[]|] eqn:Hf; cbn [snd];
      rewrite ?lookup_insert_ne by apply customer_dir_is_not_the_index;
      now rewrite ?Hf. }
  unfold reload_index, on_disk. run_py.
  pose proof (load_or_create_index_cases (disk wd)) as Hcases.
  destruct (load_or_create_index (disk wd)) as [[ix|e] d] eqn:Hload;
    cbn [fst snd] in *.
  - split; [intros e wd'; discriminate |]. split; [| exact Hfile].
    intros n wd' [= <- <-]. cbn. split; [| reflexivity].
    destruct (disk wd !! CUSTOMER_DIR) as [[]|];
      destruct (disk wd !! FAISS_INDEX_PATH) as [[]|];
      try discriminate; now injection Hcases as <- _.
  - split; [now intros e' wd' [= <- <-] |]. split; [| exact Hfile].
    intros n wd'; discriminate.
Qed.

(** X10.  If the branch for a new face completes, which takes a function
    bound to the name of the save helper, the index file holds exactly
    the index the service has in memory, which is the index as the helper
    left it with the new embedding added.  A reload straight afterwards
    loads that same index and returns its entry count, creating the
    customer directory when its name is free and changing nothing when
    it exists; when the name is taken by something that is not a
    directory, the reload raises [FileExistsError] and changes nothing. *)
Theorem enrolled_index_is_on_disk (b : save_binding)
    (crop : ndarray Pixels) (emb : Embedding) (s : float) (i : Z)
    (rs rs' : list match_result) (wd wd' : world) :
  enroll b crop emb s i rs wd = (Ok rs', wd') ->
  disk wd' !! FAISS_INDEX_PATH = Some (IndexFile (self_index wd'))
  /\ (exists save new_path wd1,
        b = Some save /\ save crop wd = (Ok new_path, wd1)
        /\ faiss_add (self_index wd1) emb = Ok (self_index wd'))
  /\ reload_index wd' =
       match disk wd' !! CUSTOMER_DIR with
       | Some Dir => (Ok (ntotal (self_index wd')), wd')
       | None =>
           (Ok (ntotal (self_index wd')),
            set_disk (<[CUSTOMER_DIR := Dir]> (disk wd')) wd')
       | Some _ => (Err FileExistsError, wd')
       end.
Proof.
  unfold enroll, utils_getattr_save, on_disk. run_py.
  destruct b as [save|]; cbn; [| intros [=]].
  destruct (save crop wd) as [[p|e] wd1] eqn:Hsave; [| intros [=]].
  destruct (faiss_add (self_index wd1) emb) as [ix'|e] eqn:Hadd;
    [| intros [=]].
  unfold write_index.
  destruct (disk wd1 !! FAISS_INDEX_PATH) as [[]|] eqn:Hfile; cbn;
    intros [= <- <-]; cbn [disk self_index set_disk set_index];
    (split; [apply lookup_insert_eq |]);
    (split; [exists save, p, wd1; now repeat split |]);
    unfold reload_index, on_disk; run_py;
    cbn [disk self_index set_disk set_index];
    rewrite load_or_create_index_cases, lookup_insert_eq,
      (lookup_insert_ne _ FAISS_INDEX_PATH CUSTOMER_DIR)
      by (intros Heq; now apply customer_dir_is_not_the_index);
    now destruct (disk wd1 !! CUSTOMER_DIR) as [[]|].
Qed.

(** X11.  A failure inside the branch for a new face is not rolled back,
    whatever function the name of the save helper is bound to.  If the
    helper raises, or the index refuses the embedding, the exception leaves
    the state as the helper left it, saved artifact included; if the index
    cannot be written because its path names a directory, the embedding
    stays in the index in memory although no file holds it. *)
Theorem failed_enrolment_is_not_rolled_back
    (save : ndarray Pixels -> M world string)
    (crop : ndarray Pixels) (emb : Embedding) (s : float) (i : Z)
    (rs : list match_result) (wd wd1 : world) :
  (forall e,
      save crop wd = (Err e, wd1) ->
      enroll (Some save) crop emb s i rs wd = (Err e, wd1))
  /\ (forall new_path e,
      save crop wd = (Ok new_path, wd1) ->
      faiss_add (self_index wd1) emb = Err e ->
      enroll (Some save) crop emb s i rs wd = (Err e, wd1))
  /\ (forall new_path ix',
      save crop wd = (Ok new_path, wd1) ->
      faiss_add (self_index wd1) emb = Ok ix' ->
      disk wd1 !! FAISS_INDEX_PATH = Some Dir ->
      enroll (Some save) crop emb s i rs wd
      = (Err RuntimeError, set_index ix' wd1)).
Proof.
  unfold enroll, utils_getattr_save, on_disk, write_index. run_py. cbn.
  split; [| split].
  - intros e ->. reflexivity.
  - intros p e -> ->. reflexivity.
  - intros p ix' -> -> Hdir. cbn [disk set_index]. rewrite Hdir.
    destruct wd1; reflexivity.
Qed.
End ServiceLifecycle.

(** ** The batch endpoint and the direct path *)

Section BatchInvariants.
Import utils utils_io services models api.
Context `{E : Externals}.

(** What [recognize_image_path] gives for the crops the detector yields:
    the verdicts when every crop is matched, an exception otherwise; the
    state is never changed. *)
Lemma recognize_image_path_outcome (image_path : string) (wd : world) :
  snd (recognize_image_path image_path wd) = wd
  /\ forall faces,
      detect_faces_and_crop image_path
        default_edge_margin_ratio default_profile_threshold = Ok faces ->
      match mapM (returning_verdict (self_index wd)) faces with
      | Some rs => fst (recognize_image_path image_path wd) = Ok rs
      | None => is_ok (fst (recognize_image_path image_path wd)) = false
      end.
Proof.
  unfold recognize_image_path, recognize_image_path_with,
    utils_save_new_customer_face, bind, lift.
  destruct (detect_faces_and_crop image_path _ _) as [faces|e].
  - destruct (recognize_faces_unbound faces [] wd) as [Hst Hres].
    split; [exact Hst |]. intros faces' [= <-].
    destruct (mapM (returning_verdict (self_index wd)) faces) as [rs|] eqn:Hm.
    + apply Hres. now exists rs.
    + destruct (fst (recognize_faces None faces [] wd)) as [rs|e] eqn:Hr;
        [| reflexivity].
      destruct (proj1 (Hres rs) eq_refl) as (vs & [=] & _).
  - split; [reflexivity | discriminate].
Qed.

Lemma recognize_image_path_all_returning (image_path : string) (wd wd' : world)
    (rs : list match_result) :
  recognize_image_path image_path wd = (Ok rs, wd') ->
  Forall (fun r => services.is_returning r = true) rs.
Proof.
  unfold recognize_image_path, recognize_image_path_with,
    utils_save_new_customer_face, bind, lift.
  destruct (detect_faces_and_crop image_path _ _) as [faces|e];
    [| discriminate].
  intros Hrun. destruct (recognize_faces_unbound faces [] wd) as [_ Hres].
  assert (Hfst : fst (recognize_faces None faces [] wd) = Ok rs)
    by now rewrite Hrun.
  apply Hres in Hfst as (vs & Hvs & ->). cbn [app].
  apply mapM_Some in Hvs. clear - Hvs.
  induction Hvs as [|c r faces' rs' Hc _ IH]; constructor; [| exact IH].
  eapply returning_verdict_is_returning, Hc.
Qed.

Lemma no_faces_ok (name : string) : entry_ok (no_faces name).
Proof. split; [reflexivity | constructor]. Qed.

Ltac split_effect := split; [| split; [| split]]; try lia; try reflexivity.

Lemma process_upload_effect (name : string) (f : fastapi.UploadFile)
    (wd : world) :
  let run := process_upload name f wd in
  self_index (snd run) = self_index wd
  /\ disk (snd run) = disk wd
  /\ (clock wd <= clock (snd run) <= S (clock wd))%nat
  /\ forall entry, fst run = Ok entry -> entry_ok entry.
Proof.
  cbv zeta. unfold process_upload, lift, fresh_name. run_py.
  destruct (fastapi.read f) as [data|e]; cbn [fst snd].
  2: { split_effect. intros entry [=]. }
  destruct (length data =? 0)%nat; cbn [fst snd].
  { split_effect. intros entry [= <-]. apply no_faces_ok. }
  destruct (imdecode data) as [img|]; cbn [fst snd].
  2: { split_effect. intros entry [= <-]. apply no_faces_ok. }
  destruct (imwrite _ img) as [[]|e]; cbn [fst snd tick clock self_index disk].
  2: { split_effect. intros entry [=]. }
  match goal with
  | |- context [recognize_image_path ?p ?w] =>
      pose proof (proj1 (recognize_image_path_outcome p w)) as Hst;
      pose proof (recognize_image_path_all_returning p w) as Hret;
      destruct (recognize_image_path p w) as [[raw|e] wd1]
  end; cbn [fst snd] in *; subst wd1; cbn [tick clock self_index disk];
    split_effect; [| intros entry [=]].
  intros entry [= <-]. specialize (Hret _ _ eq_refl). split.
  - cbn. now rewrite length_map.
  - cbn. clear - Hret. induction Hret; constructor; assumption.
Qed.

Lemma handle_upload_effect (f : fastapi.UploadFile) (wd : world) :
  let run := handle_upload f wd in
  self_index (snd run) = self_index wd
  /\ disk (snd run) = disk wd
  /\ (clock wd <= clock (snd run) <= S (clock wd))%nat
  /\ forall entry, fst run = Ok entry -> entry_ok entry.
Proof.
  cbv zeta. unfold handle_upload.
  destruct (fastapi.filename f) as [[|a name]|]; cbn [ret fst snd].
  1, 3: split_effect; intros entry [= <-]; apply no_faces_ok.
  unfold try_except.
  pose proof (process_upload_effect (String a name) f wd) as Hrun.
  cbv zeta in Hrun.
  destruct (process_upload (String a name) f wd) as [[entry|e] wd1];
    cbn [fst snd ret] in *; destruct Hrun as (Hix & Hd & Hc & Hok);
    split_effect; try assumption.
  intros entry [= <-]. apply no_faces_ok.
Qed.

Lemma handle_uploads_effect (files : list fastapi.UploadFile) :
  forall (outputs : list RecognizePerImage) (wd : world),
    let run := handle_uploads files outputs wd in
    self_index (snd run) = self_index wd
    /\ disk (snd run) = disk wd
    /\ (clock wd <= clock (snd run) <= clock wd + length files)%nat
    /\ (Forall entry_ok outputs ->
        forall out, fst run = Ok out -> Forall entry_ok out).
Proof.
  induction files as [|f files IH]; intros outputs wd; cbv zeta.
  - cbn. split_effect. now intros Hout out [= <-].
  - cbn [handle_uploads length]. unfold bind.
    pose proof (handle_upload_effect f wd) as Hf. cbv zeta in Hf.
    destruct (handle_upload f wd) as [[entry|e] wd1]; cbn [fst snd] in *;
      destruct Hf as (Hix & Hd & Hc & Hok).
    + specialize (IH (outputs ++ [entry]) wd1). cbv zeta in IH.
      destruct IH as (Hix' & Hd' & Hc' & Hok').
      split_effect; try congruence.
      intros Hout. apply Hok'. apply Forall_app. split; [exact Hout |].
      constructor; [now apply Hok | constructor].
    + split_effect; try assumption. intros _ out [=].
Qed.


(** X13.  In every entry of a batch response the face count is the number
    of items, and every item is a Returning one: the response never lists
    a new customer. *)
Theorem batch_entries_count_their_returning_items
    (files : list fastapi.UploadFile) (p p' : process)
    (response : RecognizeBatchResponse) :
  recognize_batch files p = (Ok response, p') ->
  Forall (fun entry =>
            num_faces entry = Z.of_nat (length (results entry))
            /\ Forall (fun item => is_returning item = true) (results entry))
    (items response).
Proof.
  unfold recognize_batch. destruct files as [|f files]; [discriminate |].
  unfold bind. destruct (instance p) as [[ix|e] p1]; [| discriminate].
  match goal with
  | |- context [handle_uploads ?fs [] ?w] =>
      pose proof (handle_uploads_effect fs [] w) as Hrun
  end.
  cbv zeta in Hrun.
  destruct (handle_uploads (f :: files) [] _) as [[out|e] wd'];
    [| discriminate].
  intros [= <- _]. cbn [items].
  destruct Hrun as (_ & _ & _ & Hok). now apply Hok.
Qed.
End BatchInvariants.

Section BatchComposition.
Import utils utils_io services models api streamlit_app.
Context `{E : Externals}.

(** X14.  What an upload that reads and decodes is answered with: when the
    picture is written to its scratch file and the detector yields the
    crops [faces], the entry lists one Returning item per crop if every
    crop is matched, and is the empty entry otherwise.  So a single new
    face hides every returning customer of the picture, and a picture
    without a usable face gets the same entry as a failed upload. *)
Theorem readable_upload_entry (f : fastapi.UploadFile) (name : string)
    (data : list Byte.byte) (img : ndarray Pixels)
    (faces : list (ndarray Pixels)) (wd : world) :
  fastapi.filename f = Some name ->
  name <> ""%string ->
  fastapi.read f = Ok data ->
  data <> [] ->
  imdecode data = Some img ->
  let tmp_path := mkstemp (upload_suffix name) "upload_" (clock wd) in
  imwrite tmp_path img = Ok tt ->
  detect_faces_and_crop tmp_path
    default_edge_margin_ratio default_profile_threshold = Ok faces ->
  handle_upload f wd
  = (Ok (entry_of_faces name (self_index wd) faces), tick wd)
  /\ (Exists (fun c => decided_new (self_index wd) c = true) faces ->
      entry_of_faces name (self_index wd) faces = no_faces name)
  /\ (faces = [] ->
      entry_of_faces name (self_index wd) faces = no_faces name).
Proof.
  intros Hname Hne Hread Hdata Himg tmp_path Hwrite Hdetect.
  split; [| split].
  - unfold handle_upload. rewrite Hname.
    destruct name as [|a name]; [contradiction |].
    unfold try_except, process_upload, lift, fresh_name. run_py.
    rewrite Hread. destruct data as [|b data]; [contradiction |].
    cbn [length Nat.eqb]. rewrite Himg.
    fold (upload_suffix (String a name)). fold tmp_path. rewrite Hwrite.
    destruct (recognize_image_path_outcome tmp_path (tick wd)) as [Hst Hres].
    specialize (Hres faces Hdetect). cbn [tick self_index] in Hres.
    unfold entry_of_faces.
    destruct (recognize_image_path tmp_path (tick wd)) as [r wd1].
    cbn [fst snd] in *. subst wd1.
    destruct (mapM (returning_verdict (self_index wd)) faces) as [rs|].
    + rewrite Hres. cbn. now rewrite length_map.
    + destruct r; [discriminate | reflexivity].
  - intros Hnew. unfold entry_of_faces.
    destruct (mapM (returning_verdict (self_index wd)) faces) as [rs|] eqn:Hm;
      [| reflexivity].
    exfalso. apply mapM_Some in Hm.
    apply Exists_exists in Hnew as (c & Hin & Hc).
    apply list_elem_of_lookup in Hin as [k Hk].
    destruct (Forall2_lookup_l _ _ _ _ _ Hm Hk) as (v & _ & Hv).
    rewrite (decided_new_no_verdict _ _ Hc) in Hv. discriminate.
  - intros ->. reflexivity.
Qed.

Lemma handle_uploads_acc (files : list fastapi.UploadFile) :
  forall (outputs : list RecognizePerImage) (wd : world),
    handle_uploads files outputs wd =
      (match fst (handle_uploads files [] wd) with
       | Ok entries => Ok (outputs ++ entries)
       | Err e => Err e
       end, snd (handle_uploads files [] wd)).
Proof.
  induction files as [|f files IH]; intros outputs wd.
  - cbn. now rewrite app_nil_r.
  - cbn [handle_uploads]. unfold bind.
    destruct (handle_upload f wd) as [[entry|e] wd1]; [| reflexivity].
    rewrite (IH (outputs ++ [entry])), (IH ([] ++ [entry])).
    destruct (handle_uploads files [] wd1) as [[entries|e] wd2];
      cbn [fst snd]; [| reflexivity].
    now rewrite <- app_assoc.
Qed.

Lemma handle_uploads_app (files1 files2 : list fastapi.UploadFile) :
  forall (outputs : list RecognizePerImage) (wd : world),
    handle_uploads (files1 ++ files2) outputs wd =
      match handle_uploads files1 outputs wd with
      | (Ok out, wd1) => handle_uploads files2 out wd1
      | (Err e, wd1) => (Err e, wd1)
      end.
Proof.
  induction files1 as [|f files1 IH]; intros outputs wd.
  - reflexivity.
  - cbn [app handle_uploads]. unfold bind.
    destruct (handle_upload f wd) as [[entry|e] wd1]; [apply IH | reflexivity].
Qed.

(** X15.  Splitting a batch changes no entry: if a first request is
    answered and a second request, sent to the process as the first left
    it, is answered too, then the two batches sent as one get the entries
    of the first followed by the entries of the second, and leave the
    process in the same state. *)
Theorem split_batch_gives_the_same_entries
    (files1 files2 : list fastapi.UploadFile) (p p1 p2 : process)
    (r1 r2 : RecognizeBatchResponse) :
  recognize_batch files1 p = (Ok r1, p1) ->
  recognize_batch files2 p1 = (Ok r2, p2) ->
  recognize_batch (files1 ++ files2) p
  = (Ok {| items := items r1 ++ items r2 |}, p2).
Proof.
  unfold recognize_batch.
  destruct files1 as [|f1 files1]; [discriminate |].
  destruct files2 as [|f2 files2]; [discriminate |].
  cbn [app]. unfold bind.
  destruct (instance p) as [[ix|e] pa]; [| discriminate].
  change (f1 :: files1 ++ f2 :: files2) with ((f1 :: files1) ++ f2 :: files2).
  rewrite handle_uploads_app.
  destruct (handle_uploads (f1 :: files1) [] _) as [[out1|e] wd1];
    [| discriminate].
  intros [= <- <-]. unfold instance. cbn [_instance services.files names].
  replace {| self_index := self_index wd1; disk := disk wd1;
             clock := clock wd1 |} with wd1 by now destruct wd1.
  rewrite (handle_uploads_acc (f2 :: files2) out1 wd1).
  destruct (handle_uploads (f2 :: files2) [] wd1) as [[out2|e] wd2];
    [| discriminate].
  now intros [= <- <-].
Qed.

(** X16.  A process that has no service object and no index file answers
    no upload at all: the batch fails as a whole, the class is left without
    an object and the index path without a file.  The exception is
    [FileNotFoundError] when the customer directory could be ensured. *)
Theorem batch_without_index_file_fails_as_a_whole
    (files : list fastapi.UploadFile) (p : process) :
  files <> [] ->
  _instance p = None ->
  services.files p !! FAISS_INDEX_PATH = None ->
  exists e p',
    recognize_batch files p = (Err e, p')
    /\ _instance p' = None
    /\ services.files p' !! FAISS_INDEX_PATH = None
    /\ (services.files p !! CUSTOMER_DIR = None
        \/ services.files p !! CUSTOMER_DIR = Some Dir ->
        e = FileNotFoundError).
Proof.
  intros Hne Hinst Hfile. unfold recognize_batch.
  destruct files as [|f files]; [contradiction |].
  unfold bind, instance, init. rewrite Hinst, load_or_create_index_cases, Hfile.
  destruct (services.files p !! CUSTOMER_DIR) as [[]|] eqn:Hdir;
    eexists _, _; (split; [reflexivity |]); cbn [_instance services.files];
    (split; [reflexivity |]);
    (split; [first [assumption
                   | now rewrite lookup_insert_ne
                       by apply customer_dir_is_not_the_index] |]);
    first [reflexivity | intros [[=]|[=]] | now intros _].
Qed.

(** X17.  Once the start-up hook has run without an exception the class
    holds a service object, and from then on every batch of at least one
    upload is answered with one entry per upload, whatever happens to the
    working directory in the meantime: the index file is not needed
    again. *)
Theorem started_service_answers_every_batch (p p1 : process) :
  main._startup p = (Ok tt, p1) ->
  exists ix,
    _instance p1 = Some ix
    /\ forall files d n,
        files <> [] ->
        exists response p',
          recognize_batch files (running ix d n) = (Ok response, p')
          /\ length (items response) = length files.
Proof.
  unfold main._startup, bind, ret.
  destruct (instance p) as [[ix|e] pa] eqn:Hinst; [| discriminate].
  intros [= <-]. exists ix. split.
  - unfold instance, init in Hinst.
    destruct (_instance p) as [ix0|] eqn:Hp.
    + injection Hinst as <- <-. exact Hp.
    + destruct (load_or_create_index (services.files p)) as [[ix1|e] d];
        [| discriminate].
      now injection Hinst as <- <-.
  - intros files d n Hne. unfold recognize_batch.
    destruct files as [|f files]; [contradiction |].
    unfold bind, instance, running. cbn [_instance services.files names].
    destruct (handle_uploads_served (f :: files) []
                {| self_index := ix; disk := d; clock := n |})
      as (entries & wd' & Hrun & Hserved).
    rewrite Hrun. eexists _, _. split; [reflexivity |].
    cbn [items app]. now apply served_names in Hserved as [Hlen _].
Qed.

Lemma handle_bytes_as_upload (file_bytes : list Byte.byte) (filename : string)
    (wd : world) :
  handle_bytes file_bytes filename wd
  = handle_upload (as_upload (file_bytes, filename)) wd.
Proof.
  unfold handle_bytes, handle_upload, as_upload. cbn [fastapi.filename snd].
  destruct filename as [|a name]; [reflexivity |].
  unfold try_except, process_bytes, process_upload, lift. run_py.
  cbn [fastapi.read fst]. now destruct (length file_bytes =? 0)%nat.
Qed.

Lemma handle_pairs_as_uploads (pairs : list (list Byte.byte * string)) :
  forall (outputs : list RecognizePerImage) (wd : world),
    handle_pairs pairs outputs wd
    = handle_uploads (map as_upload pairs) outputs wd.
Proof.
  induction pairs as [|[file_bytes filename] pairs IH]; intros outputs wd.
  - reflexivity.
  - cbn [handle_pairs map handle_uploads]. unfold bind.
    rewrite handle_bytes_as_upload.
    destruct (handle_upload _ wd) as [[entry|e] wd1]; [apply IH | reflexivity].
Qed.

(** X18.  The direct path of the Streamlit app and the endpoint agree.  For
    at least one pair of bytes and name, [process_images_directly] returns
    the very response [recognize_batch] gives for the same uploads and
    leaves the process in the same state, and it returns [None] where the
    endpoint raises.  They differ on the empty batch only, which the
    endpoint refuses and the direct path answers with no entries; pairing
    stops at the shorter of the two lists. *)
Theorem direct_path_agrees_with_the_endpoint
    (files : list (list Byte.byte)) (filenames : list string) (p : process) :
  (zip files filenames <> [] ->
   process_images_directly files filenames p =
     match recognize_batch (map as_upload (zip files filenames)) p with
     | (Ok response, p') => (Some response, p')
     | (Err _, p') => (None, p')
     end)
  /\ (zip files filenames = [] ->
      fst (process_images_directly files filenames p)
      = (if is_ok (fst (instance p)) then Some {| items := [] |} else None)
      /\ fst (recognize_batch (map as_upload (zip files filenames)) p)
         = Err (HTTPException 400))
  /\ (forall response,
      fst (process_images_directly files filenames p) = Some response ->
      length (items response) = Nat.min (length files) (length filenames)).
Proof.
  unfold process_images_directly, recognize_batch. split; [| split].
  - intros Hne. destruct (zip files filenames) as [|pair pairs] eqn:Hzip;
      [contradiction |].
    cbn [map]. unfold bind.
    destruct (instance p) as [[ix|e] p1]; [| reflexivity].
    rewrite handle_pairs_as_uploads. cbn [map].
    destruct (handle_uploads _ [] _) as [[out|e] wd']; reflexivity.
  - intros ->. cbn [map]. split; [| reflexivity].
    destruct (instance p) as [[ix|e] p1]; reflexivity.
  - intros response.
    destruct (instance p) as [[ix|e] p1]; [| discriminate].
    rewrite handle_pairs_as_uploads.
    destruct (handle_uploads_served (map as_upload (zip files filenames)) []
                {| self_index := ix; disk := services.files p1;
                   clock := names p1 |})
      as (entries & wd' & Hrun & Hserved).
    rewrite Hrun. cbn [fst app]. intros [= <-]. cbn [items].
    apply served_names in Hserved as [Hlen _].
    rewrite Hlen, length_map. apply length_zip.
Qed.
End BatchComposition.

(** ** What is reported of a new face *)

Section NewDecision.
Import utils disk_ops utils_io services api.

(** C3 fails on the code.  A New decision exposes nothing.  Whatever the
    libraries do, every result the service returns is a Returning one:
    deciding New makes it raise where it looks up
    [utils.save_new_customer_face], before the result of that face is
    built.  So the upload of a visitor unknown to an index of one entry
    is answered with an entry of zero faces and no item: neither the
    similarity, nor a rank, nor a saved path reaches the response, and
    nothing is enrolled. *)
Theorem new_decision_is_never_reported :
  (forall (E : Externals) (image_path : string) (wd wd' : world)
          (rs : list match_result),
      recognize_image_path image_path wd = (Ok rs, wd') ->
      Forall (fun r => services.is_returning r = true) rs)
  /\ (let p := Demo.started_with Demo.stranger_index in
      decided_new Demo.stranger_index Demo.face_crop = true
      /\ fst (@recognize_image_path Demo.externals "visitor.jpg"
                (Demo.world_with Demo.stranger_index))
         = Err AttributeError
      /\ @recognize_batch Demo.externals
           [Demo.upload "visitor.jpg" [Byte.x01]] p
         = (Ok {| models.items :=
                    [{| models.filename := "visitor.jpg";
                        models.num_faces := 0;
                        models.results := [] |}] |},
            {| _instance := Some Demo.stranger_index;
               services.files := Demo.directory_with Demo.stranger_index;
               names := 1 |})).
Proof.
  split.
  - intros E image_path wd wd' rs.
    apply recognize_image_path_all_returning.
  - repeat split; vm_compute; reflexivity.
Qed.
End NewDecision.

(** ** The further properties on the concrete world *)

Section FurtherExamples.
Import utils disk_ops utils_io services api.

Lemma detected_crops_lie_within_the_picture_witness :
  Forall (within (Demo.picture tt 1000 1000)) [Demo.face_crop].
Proof.
  apply (@detected_crops_lie_within_the_picture Demo.externals "visitor.jpg"
           default_edge_margin_ratio default_profile_threshold
           (Demo.picture tt 1000 1000) [Demo.face_crop]).
  - reflexivity.
  - cbn. lia.
  - cbn. lia.
  - vm_compute. reflexivity.
Defined.

Lemma filter_raises_only_on_none_landmarks_witness :
  let img := Demo.picture tt 1000 1000 in
  let face := Demo.detection_at 400 400 200 200 (Some None)
                (Some (Some (450, 480))) None in
  pixel_landmarks face
  /\ (crop_face img default_edge_margin_ratio default_profile_threshold face
      = Err TypeError <->
      exists crop lm,
        box_crop img default_edge_margin_ratio face = Some crop
        /\ facial_area face = Some lm
        /\ ((TypeError = TypeError
             /\ (fa.left_eye lm = Some None \/ fa.right_eye lm = Some None))
            \/ (TypeError = IndexError
                /\ fa.left_eye lm <> Some None
                /\ fa.right_eye lm <> Some None
                /\ fa.nose lm = Some None))).
Proof.
  intros img face.
  assert (Hpix : pixel_landmarks face).
  { intros lm p [= <-] [H | [H | H]]; cbn in H; try discriminate.
    injection H as <-. unfold pixel_point. cbn. lia. }
  split; [exact Hpix |].
  exact (@filter_raises_only_on_none_landmarks unit img
           default_edge_margin_ratio default_profile_threshold face
           TypeError Hpix).
Defined.

Lemma one_raising_detection_aborts_the_picture_witness :
  crop_faces (Demo.picture tt 1000 1000)
    default_edge_margin_ratio default_profile_threshold
    ([Demo.frontal_at 100 100 200 200]
     ++ Demo.detection_at 400 400 200 200 (Some None) (Some None) None
     :: [Demo.frontal_at 700 700 200 200]) []
  = Err TypeError.
Proof.
  apply (@one_raising_detection_aborts_the_picture unit).
  - constructor; [vm_compute; reflexivity | constructor].
  - vm_compute. reflexivity.
Defined.

Lemma detection_without_box_is_skipped_witness :
  crop_face (Demo.picture tt 1000 1000)
    default_edge_margin_ratio default_profile_threshold
    {| facial_area := None |}
  = Ok None.
Proof.
  apply (@detection_without_box_is_skipped unit). left. reflexivity.
Defined.

Lemma file_named_as_customer_dir_blocks_loading_witness :
  let d := <[CUSTOMER_DIR := @OtherFile Demo.externals]>
             (Demo.directory_with Demo.familiar_index) in
  @load_or_create_index Demo.externals d = (Err FileExistsError, d).
Proof.
  intros d.
  apply (@file_named_as_customer_dir_blocks_loading Demo.externals d
           (@OtherFile Demo.externals)).
  - apply lookup_insert_eq.
  - discriminate.
Defined.

Lemma enrolled_index_is_on_disk_witness :
  let run := @enroll Demo.externals (Some Demo.save_under_customer_dir)
               Demo.face_crop [1%float; 0%float] 0%float 0 []
               (Demo.world_with Demo.stranger_index) in
  disk (snd run) !! FAISS_INDEX_PATH
  = Some (@IndexFile Demo.externals (self_index (snd run))).
Proof.
  intros run.
  refine (proj1 (@enrolled_index_is_on_disk Demo.externals
            (Some Demo.save_under_customer_dir) Demo.face_crop
            [1%float; 0%float] 0%float 0 []
            [{| is_returning := false; similarity := 0%float; index := 0;
                saved_path := Some "known_faces/customer_2.jpg"%string |}]
            (Demo.world_with Demo.stranger_index) (snd run) _)).
  vm_compute. reflexivity.
Defined.


Lemma batch_entries_count_their_returning_items_witness :
  let p := Demo.started_with Demo.familiar_index in
  let files := [Demo.upload "known.jpg" [Byte.x01];
                Demo.upload "broken.jpg" [Byte.x00]] in
  Forall (fun entry =>
            models.num_faces entry = Z.of_nat (length (models.results entry))
            /\ Forall (fun item => models.is_returning item = true)
                 (models.results entry))
    [{| models.filename := "known.jpg"; models.num_faces := 1;
        models.results := [{| models.is_returning := true;
                              models.similarity := 1%float |}] |};
     no_faces "broken.jpg"].
Proof.
  intros p files.
  apply (@batch_entries_count_their_returning_items Demo.externals files p
           (snd (@recognize_batch Demo.externals files p))
           {| models.items :=
                [{| models.filename := "known.jpg"; models.num_faces := 1;
                    models.results := [{| models.is_returning := true;
                                          models.similarity := 1%float |}] |};
                 no_faces "broken.jpg"] |}).
  vm_compute. reflexivity.
Defined.

Lemma readable_upload_entry_witness :
  let wd := Demo.world_with Demo.familiar_index in
  @handle_upload Demo.externals (Demo.upload "known.jpg" [Byte.x01]) wd
  = (Ok (@entry_of_faces Demo.externals "known.jpg" Demo.familiar_index
           [Demo.face_crop]), tick wd).
Proof.
  intros wd.
  refine (proj1 (@readable_upload_entry Demo.externals
            (Demo.upload "known.jpg" [Byte.x01]) "known.jpg" [Byte.x01]
            (Demo.picture tt 1000 1000) [Demo.face_crop] wd
            _ _ _ _ _ _ _)).
  - reflexivity.
  - discriminate.
  - reflexivity.
  - discriminate.
  - reflexivity.
  - reflexivity.
  - vm_compute. reflexivity.
Defined.

Lemma split_batch_gives_the_same_entries_witness :
  let p := Demo.started_with Demo.familiar_index in
  let known := Demo.upload "known.jpg" [Byte.x01] in
  let broken := Demo.upload "broken.jpg" [Byte.x00] in
  fst (@recognize_batch Demo.externals ([known] ++ [broken]) p)
  = Ok {| models.items :=
            [{| models.filename := "known.jpg"; models.num_faces := 1;
                models.results := [{| models.is_returning := true;
                                      models.similarity := 1%float |}] |}]
            ++ [no_faces "broken.jpg"] |}.
Proof.
  intros p known broken.
  rewrite (@split_batch_gives_the_same_entries Demo.externals
             [known] [broken] p
             (snd (@recognize_batch Demo.externals [known] p))
             (snd (@recognize_batch Demo.externals [broken]
                     (snd (@recognize_batch Demo.externals [known] p))))
             {| models.items :=
                  [{| models.filename := "known.jpg"; models.num_faces := 1;
                      models.results := [{| models.is_returning := true;
                                            models.similarity := 1%float |}] |}] |}
             {| models.items := [no_faces "broken.jpg"] |}
             ltac:(vm_compute; reflexivity) ltac:(vm_compute; reflexivity)).
  reflexivity.
Defined.

Lemma batch_without_index_file_fails_as_a_whole_witness :
  let p := {| _instance := None; services.files := ∅; names := 0 |} in
  exists e p',
    @recognize_batch Demo.externals [Demo.upload "known.jpg" [Byte.x01]] p
    = (Err e, p')
    /\ _instance p' = None.
Proof.
  intros p.
  destruct (@batch_without_index_file_fails_as_a_whole Demo.externals
              [Demo.upload "known.jpg" [Byte.x01]] p
              ltac:(discriminate) ltac:(reflexivity) ltac:(reflexivity))
    as (e & p' & Hrun & Hinst & _).
  exists e, p'. split; [exact Hrun | exact Hinst].
Defined.

Lemma started_service_answers_every_batch_witness :
  let p := {| _instance := None;
              services.files := Demo.directory_with Demo.familiar_index;
              names := 0 |} in
  exists ix,
    _instance (snd (@main._startup Demo.externals p)) = Some ix
    /\ forall files d n,
        files <> [] ->
        exists response p',
          @recognize_batch Demo.externals files (running ix d n)
          = (Ok response, p')
          /\ length (models.items response) = length files.
Proof.
  intros p.
  apply (@started_service_answers_every_batch Demo.externals p
           (snd (@main._startup Demo.externals p))).
  vm_compute. reflexivity.
Defined.
End FurtherExamples.
